(** * NearEarthObjects: the entity model, the database and its query engine

    A shallow embedding of [models.py] and [database.py].

    Python objects are mutable and shared by reference: the database
    constructor writes into the [CloseApproach] and [NearEarthObject]
    objects it is handed, and both the indices and the link fields hold
    references.  The embedding therefore keeps an explicit object store
    (one typed heap per class, addressed by [addr]) and threads it through
    the constructor with a small state-and-exception monad.  Dictionaries
    are [gmap]s whose values are references. *)

From Stdlib Require Import ZArith.
From Stdlib Require Import Floats.SpecFloat.
From stdpp Require Import base option list strings gmap fin_maps.

Local Open Scope string_scope.
Set Warnings "-register-all,-clear-no-such-hyp".

(** ** Python values *)

(** Python's [float] is IEEE 754 binary64; [spec_float] is its
    specification-level representation (sign, mantissa, exponent). *)
Abbreviation float := spec_float.

Definition prec : Z := 53.
Definition emax : Z := 1024.

(** [float('nan')] *)
Definition nan : float := S754_nan.

(** [math.isnan] *)
Definition isnan (f : float) : bool :=
  match f with S754_nan => true | _ => false end.

Module datetime.
(** [datetime.date]: a calendar day. *)
Record date := Date { year : Z; month : Z; day : Z }.

(** [datetime.datetime], minute precision as in the data set. *)
Record datetime := Datetime { date_of : date; hour : Z; minute : Z }.

(** [d1 <= d2] on dates: lexicographic on (year, month, day). *)
Definition date_leb (d1 d2 : date) : bool :=
  if (year d1 <? year d2)%Z then true
  else if (year d2 <? year d1)%Z then false
  else if (month d1 <? month d2)%Z then true
  else if (month d2 <? month d1)%Z then false
  else (day d1 <=? day d2)%Z.
End datetime.

(** The loosely-typed values that reach the constructors and the filter
    specification: CSV/JSON cells (strings), numbers, booleans, [None],
    dates and tuples of those. *)
Inductive pyval :=
| PNone
| PBool (b : bool)
| PInt (z : Z)
| PFloat (f : float)
| PStr (s : string)
| PDate (d : datetime.date)
| PTuple (l : list pyval).

Inductive exception :=
| KeyError (key : string)
| IndexError
| TypeError
| ValueError
| OverflowError
| AttributeError.

(** A computation without side effects that may raise. *)
Inductive result (A : Type) :=
| Ok (a : A)
| Err (e : exception).
Arguments Ok {A} a.
Arguments Err {A} e.

#[export] Instance result_ret : MRet result := λ A a, Ok a.
#[export] Instance result_bind : MBind result := λ A B k r,
  match r with
  | Ok a => k a
  | Err e => Err e
  end.

(** [v == s] for a string literal [s]: only a [str] compares equal to a
    [str]. *)
Definition py_eq_str (v : pyval) (s : string) : bool :=
  match v with
  | PStr t => String.eqb t s
  | _ => false
  end.

(** [bool(v)]: Python truthiness. *)
Definition py_bool (v : pyval) : bool :=
  match v with
  | PNone => false
  | PBool b => b
  | PInt z => negb (z =? 0)%Z
  | PFloat f => negb (SFeqb f (S754_zero false))
  | PStr s => negb (String.eqb s "")
  | PDate _ => true
  | PTuple l => match l with [] => false | _ => true end
  end.

(** [v[i]] for a literal index [i >= 0]: tuples and strings are
    subscriptable, everything else raises [TypeError]. *)
Definition py_getitem (v : pyval) (i : nat) : result pyval :=
  match v with
  | PTuple l =>
      match l !! i with
      | Some x => Ok x
      | None => Err IndexError
      end
  | PStr s =>
      match String.get i s with
      | Some c => Ok (PStr (String c EmptyString))
      | None => Err IndexError
      end
  | _ => Err TypeError
  end.

(** The built-in conversions whose full definition lies in the Python
    runtime and not in this repository: parsing a decimal literal into a
    [float] ([None] stands for [ValueError]), printing a [float], which
    never fails, and printing the other values that are not already
    strings, which can raise (CPython refuses to print an [int] of more
    digits than its conversion limit).  Everything below holds for every
    choice. *)
Class Builtins := {
  float_of_str : string → option float;
  str_of_float : float → string;
  repr : pyval → result string;
}.

Section Conversions.
Context `{Builtins}.

(** [float(v)] *)
Definition py_float (v : pyval) : result float :=
  match v with
  | PFloat f => Ok f
  | PBool b => Ok (binary_normalize prec emax (if b then 1 else 0) 0 false)
  | PInt z =>
      match binary_normalize prec emax z 0 false with
      | S754_infinity _ => Err OverflowError
      | f => Ok f
      end
  | PStr s =>
      match float_of_str s with
      | Some f => Ok f
      | None => Err ValueError
      end
  | PNone | PDate _ | PTuple _ => Err TypeError
  end.

(** [str(v)] *)
Definition py_str (v : pyval) : result string :=
  match v with
  | PStr s => Ok s
  | PNone => Ok "None"
  | PBool true => Ok "True"
  | PBool false => Ok "False"
  | PFloat f => Ok (str_of_float f)
  | PInt _ | PDate _ | PTuple _ => repr v
  end.
End Conversions.

(** ** models.py *)

(** References into the object store. *)
Definition addr := nat.

Module NearEarthObject.
Record t := Build {
  designation : string;
  name : option string;
  diameter : float;
  hazardous : bool;
  approaches : list addr;   (* references to [CloseApproach] objects *)
}.

Definition set_approaches (l : list addr) (self : t) : t :=
  Build (designation self) (name self) (diameter self) (hazardous self) l.

Section Init.
Context `{Builtins}.

(** [NearEarthObject.__init__].  [name] is documented as "string or
    None" and is stored uncoerced; [designation], [diameter] and
    [hazardous] go through [str], [float] and [bool].  The extra
    keyword arguments [**info] are dropped by the source and have no
    counterpart here. *)
Definition __init__ (designation : pyval) (name : option string)
    (diameter hazardous : pyval) : result t :=
  let name := if bool_decide (name = Some "") then None else name in
  let diameter := if py_eq_str diameter "" then PFloat nan else diameter in
  let hazardous :=
    if py_eq_str hazardous "Y" then PBool true
    else if py_eq_str hazardous "N" then PBool false
    else hazardous in
  des ← py_str designation;
  d ← py_float diameter;
  Ok (Build des name d (py_bool hazardous) []).
End Init.

(** Defaults of the keyword parameters. *)
Definition default_name : option string := None.
Definition default_diameter : pyval := PFloat nan.
Definition default_hazardous : pyval := PBool false.

(** The [fullname] property. *)
Definition fullname (self : t) : string :=
  match name self with
  | None => designation self
  | Some n => designation self ++ " " ++ n
  end.

Section Str.
Context `{Builtins}.

(** [NearEarthObject.__str__].  The replacement field [{self.diameter}]
    formats the float with [str]. *)
Definition __str__ (self : t) : string :=
  let hazard_desc := if hazardous self then "is" else "is not" in
  if isnan (diameter self) then
    "A Near Earth Object named " ++ fullname self ++ " with "
    ++ "an unknown diameter and " ++ hazard_desc ++ " potentially hazardus."
  else
    "A Near Earth Object named " ++ fullname self ++ " has "
    ++ "a diameter of " ++ str_of_float (diameter self) ++ " km and "
    ++ hazard_desc ++ " potentially hazardus.".
End Str.
End NearEarthObject.

Module CloseApproach.
(** [name], [diameter] and [hazardous] are attributes that do not exist
    on a fresh [CloseApproach]; the database constructor creates them.
    The outer [option] records whether the attribute is present. *)
Record t := Build {
  designation : string;
  time : datetime.datetime;
  distance : float;
  velocity : float;
  neo : option addr;        (* reference to a [NearEarthObject], or None *)
  name : option (option string);
  diameter : option float;
  hazardous : option bool;
}.

Definition set_neo (v : option addr) (self : t) : t :=
  Build (designation self) (time self) (distance self) (velocity self)
        v (name self) (diameter self) (hazardous self).
Definition set_name (v : option string) (self : t) : t :=
  Build (designation self) (time self) (distance self) (velocity self)
        (neo self) (Some v) (diameter self) (hazardous self).
Definition set_diameter (v : float) (self : t) : t :=
  Build (designation self) (time self) (distance self) (velocity self)
        (neo self) (name self) (Some v) (hazardous self).
Definition set_hazardous (v : bool) (self : t) : t :=
  Build (designation self) (time self) (distance self) (velocity self)
        (neo self) (name self) (diameter self) (Some v).

Section Init.
Context `{Builtins}.
(** [helpers.cd_to_datetime]: the time-parsing collaborator, which is
    outside this repository's core and taken as given. *)
Variable cd_to_datetime : string → result datetime.datetime.

(** [CloseApproach.__init__]: the designation is stored as passed, the
    link to the NEO starts as [None]. *)
Definition __init__ (designation cd_time : string)
    (distance velocity : pyval) : result t :=
  tm ← cd_to_datetime cd_time;
  d ← py_float distance;
  v ← py_float velocity;
  Ok (Build designation tm d v None None None None).
End Init.

Definition default_distance : pyval := PFloat nan.
Definition default_velocity : pyval := PFloat nan.
End CloseApproach.

(** ** The object store *)

(** Every reference denotes an object, so each heap is a total function
    from addresses; two references alias exactly when they are equal. *)
Record Store := MkStore {
  neo_objs : addr → NearEarthObject.t;
  ca_objs : addr → CloseApproach.t;
}.

Definition upd_neo (n : addr) (f : NearEarthObject.t → NearEarthObject.t)
    (s : Store) : Store :=
  MkStore (λ a, if decide (a = n) then f (neo_objs s n) else neo_objs s a)
          (ca_objs s).

Definition upd_ca (c : addr) (f : CloseApproach.t → CloseApproach.t)
    (s : Store) : Store :=
  MkStore (neo_objs s)
          (λ a, if decide (a = c) then f (ca_objs s c) else ca_objs s a).

(** Two stores hold the same objects. *)
Definition store_eq (s1 s2 : Store) : Prop :=
  (∀ n, neo_objs s1 n = neo_objs s2 n) ∧ (∀ c, ca_objs s1 c = ca_objs s2 c).

(** ** Stateful computations that may raise *)

Inductive outcome (A : Type) :=
| Done (a : A) (s : Store)
| Raised (e : exception) (s : Store).
Arguments Done {A} a s.
Arguments Raised {A} e s.

Definition M (A : Type) : Type := Store → outcome A.

#[export] Instance M_ret : MRet M := λ A a s, Done a s.
#[export] Instance M_bind : MBind M := λ A B k m s,
  match m s with
  | Done a s' => k a s'
  | Raised e s' => Raised e s'
  end.

Definition raise {A} (e : exception) : M A := λ s, Raised e s.
Definition gets {A} (f : Store → A) : M A := λ s, Done (f s) s.
Definition modify (f : Store → Store) : M unit := λ s, Done tt (f s).

(** [for x in l: body x] *)
Fixpoint for_each {X} (l : list X) (body : X → M unit) : M unit :=
  match l with
  | [] => mret tt
  | x :: l' => body x ≫= λ _, for_each l' body
  end.

(** [d[k]] on a dictionary with string keys: [KeyError] when absent. *)
Definition dict_getitem {V} (d : gmap string V) (k : string) : M V :=
  match d !! k with
  | Some v => mret v
  | None => raise (KeyError k)
  end.

(** ** database.py *)

(** The predicate classes of [filters.py], as [query] uses them:
    [filt.XFilter(lower, upper)(approach)].  A predicate reads the
    approach (and whatever it links to) from the store and either raises
    or returns a value, of which [all] only sees the truthiness. *)
Class Filters := {
  DateFilter : pyval → pyval → Store → addr → result bool;
  DistanceFilter : pyval → pyval → Store → addr → result bool;
  VelocityFilter : pyval → pyval → Store → addr → result bool;
  DiameterFilter : pyval → pyval → Store → addr → result bool;
  HazardousFilter : pyval → pyval → Store → addr → result bool;
}.

Module NEODatabase.
Record t := Build {
  _neos : list addr;
  _approaches : list addr;
  neo_des_dic : gmap string addr;
  neo_nam_dic : gmap (option string) addr;
}.

(** Lines 31-33: the designation index. *)
Definition build_des_dic (s : Store) (neos : list addr) : gmap string addr :=
  foldl (λ dic neo, <[NearEarthObject.designation (neo_objs s neo) := neo]> dic)
        ∅ neos.

(** Lines 36-39: the name index.  The guard is the source's
    [neo.name != None or neo.name != ''].  The key is [neo.name]
    itself, so [None] is a possible key. *)
Definition build_nam_dic (s : Store) (neos : list addr)
    : gmap (option string) addr :=
  foldl (λ dic neo,
           let name := NearEarthObject.name (neo_objs s neo) in
           if negb (bool_decide (name = None))
              || negb (bool_decide (name = Some ""))
           then <[name := neo]> dic
           else dic)
        ∅ neos.

(** [approach.neo.<field>]: dereference the link, which fails on
    [None]. *)
Definition approach_neo (approach : addr) : M NearEarthObject.t :=
  r ← gets (λ s, CloseApproach.neo (ca_objs s approach));
  match r with
  | Some n => gets (λ s, neo_objs s n)
  | None => raise AttributeError
  end.

(** Lines 42-46: the body of the linking loop. *)
Definition link_approach (dic : gmap string addr) (approach : addr) : M unit :=
  des ← gets (λ s, CloseApproach.designation (ca_objs s approach));
  n ← dict_getitem dic des;
  modify (upd_ca approach (CloseApproach.set_neo (Some n)));;
  neo ← approach_neo approach;
  modify (upd_ca approach (CloseApproach.set_name (NearEarthObject.name neo)));;
  neo ← approach_neo approach;
  modify (upd_ca approach (CloseApproach.set_diameter (NearEarthObject.diameter neo)));;
  neo ← approach_neo approach;
  modify (upd_ca approach (CloseApproach.set_hazardous (NearEarthObject.hazardous neo))).

(** Line 50: the list comprehension. *)
Definition approaches_of (s : Store) (cas : list addr) (neo : addr) : list addr :=
  filter (λ ca, CloseApproach.designation (ca_objs s ca)
                = NearEarthObject.designation (neo_objs s neo)) cas.

(** Lines 49-50: the body of the back-linking loop. *)
Definition link_neo (cas : list addr) (neo : addr) : M unit :=
  l ← gets (λ s, approaches_of s cas neo);
  modify (upd_neo neo (NearEarthObject.set_approaches l)).

(** [NEODatabase.__init__] *)
Definition __init__ (neos cas : list addr) : M t :=
  neo_des_dic ← gets (λ s, build_des_dic s neos);
  neo_nam_dic ← gets (λ s, build_nam_dic s neos);
  for_each cas (link_approach neo_des_dic);;
  for_each neos (link_neo cas);;
  mret (Build neos cas neo_des_dic neo_nam_dic).

(** [get_neo_by_designation]: [dict.get], [None] when absent. *)
Definition get_neo_by_designation (self : t) (designation : string)
    : option addr :=
  neo_des_dic self !! designation.

(** [get_neo_by_name] *)
Definition get_neo_by_name (self : t) (name : option string) : option addr :=
  if bool_decide (name ∈ dom (neo_nam_dic self))
  then neo_nam_dic self !! name
  else None.

Section Query.
Context `{Filters}.

(** One [if key in filters.keys(): filter_results.append(...)] block:
    both components of the value are fetched, left to right, before
    the predicate is built and called. *)
Definition apply_filter (F : pyval → pyval → Store → addr → result bool)
    (filters : gmap string pyval) (key : string) (s : Store)
    (approach : addr) (filter_results : list bool) : result (list bool) :=
  match filters !! key with
  | None => Ok filter_results
  | Some v =>
      lower ← py_getitem v 0;
      upper ← py_getitem v 1;
      b ← F lower upper s approach;
      Ok (filter_results ++ [b])%list
  end.

(** Lines 103-133: the loop body up to [all]. *)
Definition filter_results (filters : gmap string pyval) (s : Store)
    (approach : addr) : result (list bool) :=
  r ← apply_filter DateFilter filters "date" s approach [];
  r ← apply_filter DateFilter filters "start_date" s approach r;
  r ← apply_filter DateFilter filters "end_date" s approach r;
  r ← apply_filter DistanceFilter filters "distance_min" s approach r;
  r ← apply_filter DistanceFilter filters "distance_max" s approach r;
  r ← apply_filter VelocityFilter filters "velocity_min" s approach r;
  r ← apply_filter VelocityFilter filters "velocity_max" s approach r;
  r ← apply_filter DiameterFilter filters "diameter_min" s approach r;
  r ← apply_filter DiameterFilter filters "diameter_max" s approach r;
  apply_filter HazardousFilter filters "hazardous" s approach r.

(** [all(xs)] *)
Definition all (xs : list bool) : bool := forallb id xs.

(** The generator, run to exhaustion against a store that does not
    change while it is consumed: the approaches it yields, in order,
    and the exception that ended it, if any. *)
Fixpoint scan (filters : gmap string pyval) (s : Store)
    (approaches : list addr) : list addr * option exception :=
  match approaches with
  | [] => ([], None)
  | approach :: rest =>
      match filter_results filters s approach with
      | Err e => ([], Some e)
      | Ok r =>
          let '(ys, e) := scan filters s rest in
          (if all r then approach :: ys else ys, e)
      end
  end.

(** [NEODatabase.query] *)
Definition query (self : t) (filters : gmap string pyval) (s : Store)
    : list addr * option exception :=
  scan filters s (_approaches self).
End Query.
End NEODatabase.

(** ** filters.py, from its specification *)

Module SpecFilters.
(** Modelled from the spec: [filters.py] is not among the sources.  A
    bound is either open ([None], no constraint on that side) or a
    [float]; the comparison-based predicates hold iff the attribute
    lies within [lower, upper] inclusive. *)
Definition float_within (lower upper : pyval) (x : float) : result bool :=
  lo ← match lower with
       | PNone => Ok true
       | PFloat l => Ok (SFleb l x)
       | _ => Err TypeError
       end;
  hi ← match upper with
       | PNone => Ok true
       | PFloat u => Ok (SFleb x u)
       | _ => Err TypeError
       end;
  Ok (lo && hi).

(** Modelled from the spec: the date predicate compares the date
    portion of the approach time against an inclusive window with
    optional ends. *)
Definition date_within (lower upper : pyval) (d : datetime.date) : result bool :=
  lo ← match lower with
       | PNone => Ok true
       | PDate l => Ok (datetime.date_leb l d)
       | _ => Err TypeError
       end;
  hi ← match upper with
       | PNone => Ok true
       | PDate u => Ok (datetime.date_leb d u)
       | _ => Err TypeError
       end;
  Ok (lo && hi).

(** [h == v] for a [bool] [h]: a [bool] is the integer 1 or 0. *)
Definition py_eq_bool (h : bool) (v : pyval) : bool :=
  match v with
  | PBool b => eqb h b
  | PInt z => (z =? (if h then 1 else 0))%Z
  | PFloat f => SFeqb f (binary_normalize prec emax (if h then 1 else 0) 0 false)
  | _ => false
  end.

(** An attribute the database constructor has not created yet. *)
Definition attr {A} (o : option A) : result A :=
  match o with
  | Some a => Ok a
  | None => Err AttributeError
  end.

(** Modelled from the spec: the five predicates of [filters.py].  The
    hazardous predicate "evaluates equality against a boolean
    expectation", its first bound; the second is not looked at. *)
#[export] Instance spec_filters : Filters := {|
  DateFilter lower upper s a :=
    date_within lower upper (datetime.date_of (CloseApproach.time (ca_objs s a)));
  DistanceFilter lower upper s a :=
    float_within lower upper (CloseApproach.distance (ca_objs s a));
  VelocityFilter lower upper s a :=
    float_within lower upper (CloseApproach.velocity (ca_objs s a));
  DiameterFilter lower upper s a :=
    d ← attr (CloseApproach.diameter (ca_objs s a));
    float_within lower upper d;
  HazardousFilter lower upper s a :=
    h ← attr (CloseApproach.hazardous (ca_objs s a));
    Ok (py_eq_bool h lower);
|}.
End SpecFilters.

(** ** The two-NEO, two-approach scenario *)

Module Scenario.
(** The binary64 value [m * 2^e]. *)
Definition float_lit (m e : Z) : float := binary_normalize prec emax m e false.

(** NEO A: "2000 AB", named "Apophis", diameter 0.5, hazardous. *)
Definition neo_A : NearEarthObject.t :=
  NearEarthObject.Build "2000 AB" (Some "Apophis") (float_lit 1 (-1)) true [].

(** NEO B: "2001 XY", no name, unknown diameter, not hazardous. *)
Definition neo_B : NearEarthObject.t :=
  NearEarthObject.Build "2001 XY" None nan false [].

(** Approach of A: distance 0.1 (0x1.999999999999ap-4), velocity 5.0. *)
Definition ca_A (T1 : datetime.datetime) : CloseApproach.t :=
  CloseApproach.Build "2000 AB" T1
    (float_lit 7205759403792794 (-56)) (float_lit 5 0) None None None None.

(** Approach of B: distance 0.2 (0x1.999999999999ap-3), velocity 6.0. *)
Definition ca_B (T2 : datetime.datetime) : CloseApproach.t :=
  CloseApproach.Build "2001 XY" T2
    (float_lit 7205759403792794 (-55)) (float_lit 6 0) None None None None.

(** A at address 0 and B at address 1, in both heaps. *)
Definition store (T1 T2 : datetime.datetime) : Store :=
  MkStore (λ a, match a with 0 => neo_A | _ => neo_B end)
          (λ a, match a with 0 => ca_A T1 | _ => ca_B T2 end).

Definition neos : list addr := [0; 1].
Definition approaches : list addr := [0; 1].

(** Some concrete approach times. *)
Definition T1 : datetime.datetime :=
  datetime.Datetime (datetime.Date 2029 4 13) 21 46.
Definition T2 : datetime.datetime :=
  datetime.Datetime (datetime.Date 2030 1 1) 0 0.
End Scenario.

(** ** A collection with a duplicated designation *)

Module Duplicates.
(** Two distinct NEO objects that both carry "2000 AB": the scenario's
    A at address 0 and a second record at address 1. *)
Definition neo_A' : NearEarthObject.t :=
  NearEarthObject.Build "2000 AB" (Some "Impostor") nan false [].

Definition store : Store :=
  MkStore (λ a, match a with 0 => Scenario.neo_A | _ => neo_A' end)
          (λ _, Scenario.ca_A Scenario.T1).

Definition neos : list addr := [0; 1].
Definition approaches : list addr := [0].
End Duplicates.

(** Built-ins that parse no string and print no number: enough to run
    the constructor on arguments that are already of the target type. *)
Definition no_parse : Builtins :=
  {| float_of_str := λ _, None;
     str_of_float := λ _, ""%string;
     repr := λ _, Err ValueError |}.

(** ** Auxiliary notions used to state the results *)

(** What one pass of the linking loop body leaves in an approach resolved
    to the NEO object [neo] at reference [n]. *)
Definition link_fields (n : addr) (neo : NearEarthObject.t)
    (ca : CloseApproach.t) : CloseApproach.t :=
  CloseApproach.set_hazardous (NearEarthObject.hazardous neo)
    (CloseApproach.set_diameter (NearEarthObject.diameter neo)
       (CloseApproach.set_name (NearEarthObject.name neo)
          (CloseApproach.set_neo (Some n) ca))).

(** The store after the four assignments of the loop body. *)
Definition link_store (n c : addr) (s : Store) : Store :=
  let s1 := upd_ca c (CloseApproach.set_neo (Some n)) s in
  let s2 := upd_ca c (CloseApproach.set_name
                        (NearEarthObject.name (neo_objs s n))) s1 in
  let s3 := upd_ca c (CloseApproach.set_diameter
                        (NearEarthObject.diameter (neo_objs s n))) s2 in
  upd_ca c (CloseApproach.set_hazardous
              (NearEarthObject.hazardous (neo_objs s n))) s3.

(** An approach as the linking loop leaves it, given the designation
    index and the NEO heap. *)
Definition linked (dic : gmap string addr) (N : addr → NearEarthObject.t)
    (ca : CloseApproach.t) : CloseApproach.t :=
  match dic !! CloseApproach.designation ca with
  | Some n => link_fields n (N n) ca
  | None => ca
  end.

(** Every approach of [cas] names the designation of some NEO of [neos]. *)
Definition resolvable (s : Store) (neos cas : list addr) : Prop :=
  ∀ c, c ∈ cas →
    ∃ n, n ∈ neos ∧
         NearEarthObject.designation (neo_objs s n)
         = CloseApproach.designation (ca_objs s c).

(** No two NEOs of the collection share a designation. *)
Definition unique_designations (s : Store) (neos : list addr) : Prop :=
  ∀ n1 n2, n1 ∈ neos → n2 ∈ neos →
    NearEarthObject.designation (neo_objs s n1)
    = NearEarthObject.designation (neo_objs s n2) →
    n1 = n2.

(** The blocks of the body of [query], in source order: the key each one
    tests and the predicate class it builds. *)
Definition blocks `{Filters}
    : list (string * (pyval → pyval → Store → addr → result bool)) :=
  [("date"%string, DateFilter); ("start_date"%string, DateFilter);
   ("end_date"%string, DateFilter);
   ("distance_min"%string, DistanceFilter);
   ("distance_max"%string, DistanceFilter);
   ("velocity_min"%string, VelocityFilter);
   ("velocity_max"%string, VelocityFilter);
   ("diameter_min"%string, DiameterFilter);
   ("diameter_max"%string, DiameterFilter);
   ("hazardous"%string, HazardousFilter)].

(** A run of blocks, threading [filter_results]. *)
Fixpoint run_blocks
    (bs : list (string * (pyval → pyval → Store → addr → result bool)))
    (filters : gmap string pyval) (s : Store) (approach : addr)
    (acc : list bool) : result (list bool) :=
  match bs with
  | [] => Ok acc
  | (key, F) :: bs' =>
      r ← NEODatabase.apply_filter F filters key s approach acc;
      run_blocks bs' filters s approach r
  end.

(** The block for [key] holds of an approach: the key is absent, or both
    components of its value exist and the predicate built from them
    returns a true value. *)
Definition block_holds (F : pyval → pyval → Store → addr → result bool)
    (filters : gmap string pyval) (key : string) (s : Store) (approach : addr)
    : Prop :=
  ∀ v, filters !! key = Some v →
    ∃ lower upper, py_getitem v 0 = Ok lower ∧ py_getitem v 1 = Ok upper
                   ∧ F lower upper s approach = Ok true.

(** The ten keys [query] looks for. *)
Definition recognized_keys : list string :=
  ["date"; "start_date"; "end_date"; "distance_min"; "distance_max";
   "velocity_min"; "velocity_max"; "diameter_min"; "diameter_max";
   "hazardous"].

(** The restriction of a filter mapping to the recognized keys. *)
Definition restrict (filters : gmap string pyval) : gmap string pyval :=
  filter (λ kv, kv.1 ∈ recognized_keys) filters.

(** * Results *)

Local Open Scope list_scope.

(** ** The store *)

Lemma upd_ca_same c f s : ca_objs (upd_ca c f s) c = f (ca_objs s c).
Proof. simpl. by rewrite decide_True. Qed.

Lemma upd_ca_other c f s a : a ≠ c → ca_objs (upd_ca c f s) a = ca_objs s a.
Proof. intros. simpl. by rewrite decide_False. Qed.

Lemma upd_neo_same n f s : neo_objs (upd_neo n f s) n = f (neo_objs s n).
Proof. simpl. by rewrite decide_True. Qed.

Lemma upd_neo_other n f s a : a ≠ n → neo_objs (upd_neo n f s) a = neo_objs s a.
Proof. intros. simpl. by rewrite decide_False. Qed.

(** ** The two indices *)

Section Indices.
Variable s : Store.

Abbreviation des n := (NearEarthObject.designation (neo_objs s n)).

(** A designation is indexed iff some NEO of the collection carries it,
    and the entry is one of those NEOs. *)
Lemma build_des_dic_Some neos d n :
  NEODatabase.build_des_dic s neos !! d = Some n → n ∈ neos ∧ des n = d.
Proof.
  unfold NEODatabase.build_des_dic.
  induction neos as [|x l IH] using rev_ind; [done|].
  rewrite foldl_snoc, lookup_insert. case_decide as Hd.
  - intros [= <-]. rewrite elem_of_app, list_elem_of_singleton. auto.
  - intros Hl. destruct (IH Hl). rewrite elem_of_app. auto.
Qed.

Lemma build_des_dic_is_Some neos n :
  n ∈ neos → is_Some (NEODatabase.build_des_dic s neos !! des n).
Proof.
  unfold NEODatabase.build_des_dic.
  induction neos as [|x l IH] using rev_ind; [set_solver|].
  rewrite foldl_snoc, lookup_insert. case_decide; [eauto|].
  intros [Hl | ->%list_elem_of_singleton]%elem_of_app; [auto | done].
Qed.

(** The last NEO carrying a designation owns the entry. *)
Lemma build_des_dic_last l1 b l3 :
  (∀ x, x ∈ l3 → des x ≠ des b) →
  NEODatabase.build_des_dic s (l1 ++ b :: l3) !! des b = Some b.
Proof.
  unfold NEODatabase.build_des_dic.
  induction l3 as [|x l IH] using rev_ind; intros Hl3.
  - rewrite foldl_snoc. apply lookup_insert_eq.
  - replace (l1 ++ b :: l ++ [x]) with ((l1 ++ b :: l) ++ [x])
      by (by rewrite <- app_assoc).
    rewrite foldl_snoc, lookup_insert_ne.
    + apply IH. intros y Hy. apply Hl3. set_solver.
    + apply Hl3. set_solver.
Qed.
End Indices.

(** The indices only depend on the designations and names found in the
    store. *)
Lemma build_des_dic_ext s1 s2 neos :
  (∀ n, NearEarthObject.designation (neo_objs s1 n)
        = NearEarthObject.designation (neo_objs s2 n)) →
  NEODatabase.build_des_dic s1 neos = NEODatabase.build_des_dic s2 neos.
Proof.
  intros Hd. unfold NEODatabase.build_des_dic.
  induction neos as [|x l IH] using rev_ind; [done|].
  by rewrite !foldl_snoc, IH, Hd.
Qed.

Lemma build_nam_dic_ext s1 s2 neos :
  (∀ n, NearEarthObject.name (neo_objs s1 n)
        = NearEarthObject.name (neo_objs s2 n)) →
  NEODatabase.build_nam_dic s1 neos = NEODatabase.build_nam_dic s2 neos.
Proof.
  intros Hn. unfold NEODatabase.build_nam_dic.
  induction neos as [|x l IH] using rev_ind; [done|].
  by rewrite !foldl_snoc, IH, Hn.
Qed.

(** The guard of the name index never rejects a name: no name is both
    [None] and the empty string. *)
Lemma nam_guard_always (name : option string) :
  negb (bool_decide (name = None)) || negb (bool_decide (name = Some ""%string))
  = true.
Proof. by destruct name. Qed.

(** ** The linking loop *)

Lemma link_store_ca n c s a :
  ca_objs (link_store n c s) a
  = if decide (a = c) then link_fields n (neo_objs s n) (ca_objs s c)
    else ca_objs s a.
Proof.
  unfold link_store. simpl. destruct (decide (a = c)) as [->|]; [|done].
  by rewrite !decide_True.
Qed.

Lemma approach_neo_linked c n s :
  CloseApproach.neo (ca_objs s c) = Some n →
  NEODatabase.approach_neo c s = Done (neo_objs s n) s.
Proof.
  intros Hn. unfold NEODatabase.approach_neo, gets, mbind, M_bind. by rewrite Hn.
Qed.

(** One pass of the body: a [KeyError] that leaves the store alone, or
    the four assignments. *)
Lemma link_approach_step dic c s :
  NEODatabase.link_approach dic c s
  = match dic !! CloseApproach.designation (ca_objs s c) with
    | Some n => Done tt (link_store n c s)
    | None => Raised (KeyError (CloseApproach.designation (ca_objs s c))) s
    end.
Proof.
  unfold NEODatabase.link_approach, dict_getitem.
  unfold mbind at 1, M_bind at 1, gets at 1.
  unfold mbind at 1, M_bind at 1.
  destruct (dic !! _) as [n|]; [|done].
  unfold mret, M_ret, mbind, M_bind, modify.
  rewrite (approach_neo_linked c n) by (by rewrite upd_ca_same).
  rewrite (approach_neo_linked c n) by (by rewrite !upd_ca_same).
  rewrite (approach_neo_linked c n) by (by rewrite !upd_ca_same).
  done.
Qed.

Lemma link_fields_designation n neo ca :
  CloseApproach.designation (link_fields n neo ca) = CloseApproach.designation ca.
Proof. done. Qed.

Lemma linked_designation dic N ca :
  CloseApproach.designation (linked dic N ca) = CloseApproach.designation ca.
Proof. unfold linked. by destruct (dic !! _). Qed.

(** Linking an approach a second time changes nothing, as long as the NEO
    it resolves to still has the same name, diameter and hazard flag. *)
Lemma linked_linked dic N N' ca :
  (∀ n, NearEarthObject.name (N' n) = NearEarthObject.name (N n)
        ∧ NearEarthObject.diameter (N' n) = NearEarthObject.diameter (N n)
        ∧ NearEarthObject.hazardous (N' n) = NearEarthObject.hazardous (N n)) →
  linked dic N' (linked dic N ca) = linked dic N ca.
Proof.
  intros HN. unfold linked at 1. rewrite linked_designation.
  unfold linked. destruct (dic !! _) as [n|]; [|done].
  unfold link_fields. destruct (HN n) as (-> & -> & ->). by destruct ca.
Qed.

(** The loop over a collection whose designations all resolve runs to
    completion, leaves the NEO heap alone and links exactly the
    approaches of the collection. *)
Lemma link_loop_done dic l : ∀ s,
  (∀ c, c ∈ l → is_Some (dic !! CloseApproach.designation (ca_objs s c))) →
  ∃ s', for_each l (NEODatabase.link_approach dic) s = Done tt s'
        ∧ neo_objs s' = neo_objs s
        ∧ ∀ a, ca_objs s' a = if decide (a ∈ l)
                              then linked dic (neo_objs s) (ca_objs s a)
                              else ca_objs s a.
Proof.
  induction l as [|x l IH]; intros s Hres.
  - exists s. split_and!; [done..|]. intros a. by rewrite decide_False by set_solver.
  - destruct (Hres x) as [n Hn]; [set_solver|].
    destruct (IH (link_store n x s)) as (s' & Hrun & Hneo & Hca).
    { intros c Hc. rewrite link_store_ca. case_decide as Hcx.
      - subst c. rewrite link_fields_designation. eauto.
      - apply Hres. set_solver. }
    exists s'. split_and!.
    + cbn [for_each]. unfold mbind, M_bind at 1.
      by rewrite link_approach_step, Hn.
    + by rewrite Hneo.
    + intros a. rewrite Hca, link_store_ca.
      change (neo_objs (link_store n x s)) with (neo_objs s).
      assert (Hx : linked dic (neo_objs s) (ca_objs s x)
                   = link_fields n (neo_objs s n) (ca_objs s x))
        by (unfold linked; by rewrite Hn).
      destruct (decide (a = x)) as [->|Hax].
      * rewrite (decide_True (P := x ∈ x :: l)) by set_solver.
        rewrite <- Hx. case_decide; [|done].
        by apply linked_linked.
      * destruct (decide (a ∈ l)).
        -- by rewrite decide_True by set_solver.
        -- by rewrite decide_False by set_solver.
Qed.

(** As soon as one approach of the collection does not resolve, the loop
    ends in a [KeyError] carrying an unresolved designation. *)
Lemma link_loop_raised dic l : ∀ s,
  (∃ c, c ∈ l ∧ dic !! CloseApproach.designation (ca_objs s c) = None) →
  ∃ c s', for_each l (NEODatabase.link_approach dic) s
          = Raised (KeyError (CloseApproach.designation (ca_objs s c))) s'
          ∧ c ∈ l
          ∧ dic !! CloseApproach.designation (ca_objs s c) = None.
Proof.
  induction l as [|x l IH]; intros s (c & Hc & Hnone); [set_solver|].
  cbn [for_each]. unfold mbind, M_bind at 1. rewrite link_approach_step.
  destruct (dic !! CloseApproach.designation (ca_objs s x)) as [n|] eqn:Hx.
  - assert (Hdes : ∀ a, CloseApproach.designation (ca_objs (link_store n x s) a)
                        = CloseApproach.designation (ca_objs s a)).
    { intros a. rewrite link_store_ca. case_decide; [by subst|done]. }
    destruct (IH (link_store n x s)) as (c' & s' & Hrun & Hc' & Hnone').
    { exists c. rewrite Hdes. split; [|done].
      apply elem_of_cons in Hc as [->|]; [congruence|done]. }
    exists c', s'. rewrite Hdes in Hrun, Hnone'. split_and!; [done| set_solver |done].
  - exists x, s. split_and!; [done | set_solver | done].
Qed.

(** ** The back-linking loop *)

(** The comprehension only looks at designations. *)
Lemma approaches_of_ext s1 s2 cas n :
  (∀ c, CloseApproach.designation (ca_objs s1 c)
        = CloseApproach.designation (ca_objs s2 c)) →
  NearEarthObject.designation (neo_objs s1 n)
  = NearEarthObject.designation (neo_objs s2 n) →
  NEODatabase.approaches_of s1 cas n = NEODatabase.approaches_of s2 cas n.
Proof.
  intros Hc Hn. unfold NEODatabase.approaches_of.
  apply list_filter_iff. intros c. by rewrite Hc, Hn.
Qed.

(** The loop never raises, leaves the approach heap alone and assigns a
    fresh list to the [approaches] field of exactly the NEOs of the
    collection. *)
Lemma link_neo_loop cas l : ∀ s,
  ∃ s', for_each l (NEODatabase.link_neo cas) s = Done tt s'
        ∧ ca_objs s' = ca_objs s
        ∧ ∀ a, neo_objs s' a
               = if decide (a ∈ l)
                 then NearEarthObject.set_approaches
                        (NEODatabase.approaches_of s cas a) (neo_objs s a)
                 else neo_objs s a.
Proof.
  induction l as [|x l IH]; intros s.
  - exists s. split_and!; [done..|]. intros a. by rewrite decide_False by set_solver.
  - set (s1 := upd_neo x (NearEarthObject.set_approaches
                            (NEODatabase.approaches_of s cas x)) s).
    assert (Hdes : ∀ a, NearEarthObject.designation (neo_objs s1 a)
                        = NearEarthObject.designation (neo_objs s a)).
    { intros a. subst s1. simpl. case_decide; [by subst|done]. }
    assert (Happ : ∀ a, NEODatabase.approaches_of s1 cas a
                        = NEODatabase.approaches_of s cas a).
    { intros a. by apply approaches_of_ext. }
    destruct (IH s1) as (s' & Hrun & Hca & Hneo).
    exists s'. split_and!; [done..|].
    intros a. rewrite Hneo, Happ.
    destruct (decide (a = x)) as [->|Hax].
    + rewrite (decide_True (P := x ∈ x :: l)) by set_solver.
      subst s1. rewrite upd_neo_same. by case_decide.
    + subst s1. rewrite upd_neo_other by done.
      destruct (decide (a ∈ l)).
      * by rewrite decide_True by set_solver.
      * by rewrite decide_False by set_solver.
Qed.

(** ** The constructor *)

Lemma resolvable_lookup s neos cas :
  resolvable s neos cas ↔
  ∀ c, c ∈ cas →
    is_Some (NEODatabase.build_des_dic s neos
               !! CloseApproach.designation (ca_objs s c)).
Proof.
  split; intros Hres c Hc.
  - destruct (Hres c Hc) as (n & Hn & <-). by apply build_des_dic_is_Some.
  - destruct (Hres c Hc) as [n [? ?]%build_des_dic_Some]. eauto.
Qed.

(** Construction over a consistent data set completes, returns the two
    indices built from the initial store and leaves a store in which
    exactly the approaches of [cas] are linked and exactly the NEOs of
    [neos] carry their list of approaches. *)
Lemma init_done neos cas s :
  resolvable s neos cas →
  ∃ s', NEODatabase.__init__ neos cas s
        = Done (NEODatabase.Build neos cas
                  (NEODatabase.build_des_dic s neos)
                  (NEODatabase.build_nam_dic s neos)) s'
        ∧ (∀ c, ca_objs s' c
                = if decide (c ∈ cas)
                  then linked (NEODatabase.build_des_dic s neos)
                              (neo_objs s) (ca_objs s c)
                  else ca_objs s c)
        ∧ (∀ n, neo_objs s' n
                = if decide (n ∈ neos)
                  then NearEarthObject.set_approaches
                         (NEODatabase.approaches_of s cas n) (neo_objs s n)
                  else neo_objs s n).
Proof.
  intros Hres. pose proof (proj1 (resolvable_lookup s neos cas) Hres) as Hdic.
  destruct (link_loop_done _ cas s Hdic) as (s1 & Hrun1 & Hneo1 & Hca1).
  destruct (link_neo_loop cas neos s1) as (s2 & Hrun2 & Hca2 & Hneo2).
  exists s2. split_and!.
  - unfold NEODatabase.__init__, mbind, M_bind, gets. by rewrite Hrun1, Hrun2.
  - intros c. by rewrite Hca2, Hca1.
  - intros n. rewrite Hneo2, Hneo1. case_decide; [|done]. f_equal.
    apply approaches_of_ext; [|by rewrite Hneo1].
    intros c. rewrite Hca1. case_decide; [|done]. apply linked_designation.
Qed.

(** Construction over an inconsistent data set raises [KeyError]. *)
Lemma init_raised neos cas s :
  ¬ resolvable s neos cas →
  ∃ c s', NEODatabase.__init__ neos cas s
          = Raised (KeyError (CloseApproach.designation (ca_objs s c))) s'
          ∧ c ∈ cas
          ∧ ∀ n, n ∈ neos →
              NearEarthObject.designation (neo_objs s n)
              ≠ CloseApproach.designation (ca_objs s c).
Proof.
  intros Hnres.
  set (dic := NEODatabase.build_des_dic s neos).
  assert (Hex : ∃ c, c ∈ cas
                     ∧ dic !! CloseApproach.designation (ca_objs s c) = None).
  { destruct (decide (Exists (λ c, dic !! CloseApproach.designation (ca_objs s c)
                                   = None) cas)) as [Hex|Hall].
    - by apply Exists_exists in Hex.
    - destruct Hnres. apply resolvable_lookup. intros c Hc.
      destruct (dic !! CloseApproach.designation (ca_objs s c)) eqn:Hd; [eauto|].
      destruct Hall. apply Exists_exists. eauto. }
  destruct (link_loop_raised dic cas s Hex) as (c & s' & Hrun & Hc & Hnone).
  exists c, s'. split_and!; [|done|].
  - unfold NEODatabase.__init__, mbind, M_bind, gets. fold dic. by rewrite Hrun.
  - intros n Hn Hdes. apply (build_des_dic_is_Some s) in Hn.
    rewrite Hdes in Hn. fold dic in Hn. rewrite Hnone in Hn. by destruct Hn.
Qed.

(** A construction that completed was run on a consistent data set. *)
Lemma init_Done_inv neos cas s db s' :
  NEODatabase.__init__ neos cas s = Done db s' → resolvable s neos cas.
Proof.
  intros Hrun.
  set (dic := NEODatabase.build_des_dic s neos).
  destruct (decide (Forall (λ c, is_Some (dic !! CloseApproach.designation
                                            (ca_objs s c))) cas)) as [Hall|Hnall].
  - apply resolvable_lookup. by apply Forall_forall.
  - destruct (init_raised neos cas s) as (c & s'' & Hr & _).
    + intros Hres. apply Hnall, Forall_forall.
      exact (proj1 (resolvable_lookup s neos cas) Hres).
    + congruence.
Qed.

(** What a completed construction returns and leaves behind. *)
Lemma init_Done_spec neos cas s db s' :
  NEODatabase.__init__ neos cas s = Done db s' →
  db = NEODatabase.Build neos cas (NEODatabase.build_des_dic s neos)
                         (NEODatabase.build_nam_dic s neos)
  ∧ resolvable s neos cas
  ∧ (∀ c, ca_objs s' c
          = if decide (c ∈ cas)
            then linked (NEODatabase.build_des_dic s neos)
                        (neo_objs s) (ca_objs s c)
            else ca_objs s c)
  ∧ (∀ n, neo_objs s' n
          = if decide (n ∈ neos)
            then NearEarthObject.set_approaches
                   (NEODatabase.approaches_of s cas n) (neo_objs s n)
            else neo_objs s n).
Proof.
  intros Hrun. pose proof (init_Done_inv _ _ _ _ _ Hrun) as Hres.
  destruct (init_done neos cas s Hres) as (s'' & Hrun' & Hca & Hneo).
  rewrite Hrun in Hrun'. injection Hrun' as -> ->. done.
Qed.

(** Construction changes no primary field of a NEO and no designation of
    an approach. *)
Lemma init_keeps_neo_fields neos cas s db s' :
  NEODatabase.__init__ neos cas s = Done db s' →
  ∀ n, NearEarthObject.designation (neo_objs s' n)
       = NearEarthObject.designation (neo_objs s n)
     ∧ NearEarthObject.name (neo_objs s' n) = NearEarthObject.name (neo_objs s n)
     ∧ NearEarthObject.diameter (neo_objs s' n)
       = NearEarthObject.diameter (neo_objs s n)
     ∧ NearEarthObject.hazardous (neo_objs s' n)
       = NearEarthObject.hazardous (neo_objs s n).
Proof.
  intros (_ & _ & _ & Hneo)%init_Done_spec n. rewrite Hneo. by case_decide.
Qed.

Lemma init_keeps_ca_designation neos cas s db s' :
  NEODatabase.__init__ neos cas s = Done db s' →
  ∀ c, CloseApproach.designation (ca_objs s' c)
       = CloseApproach.designation (ca_objs s c).
Proof.
  intros (_ & _ & Hca & _)%init_Done_spec c. rewrite Hca.
  case_decide; [apply linked_designation | done].
Qed.

(** ** The name index *)

(** Every NEO of the collection is entered in the name index under its
    name, whatever that name is. *)
Lemma build_nam_dic_is_Some s neos n :
  n ∈ neos →
  is_Some (NEODatabase.build_nam_dic s neos !! NearEarthObject.name (neo_objs s n)).
Proof.
  unfold NEODatabase.build_nam_dic.
  induction neos as [|x l IH] using rev_ind; [by intros ?%not_elem_of_nil|].
  rewrite foldl_snoc, nam_guard_always, lookup_insert. case_decide; [eauto|].
  intros [Hl | ->%list_elem_of_singleton]%elem_of_app; [auto | done].
Qed.

(** C1: [get_neo_by_name] is documented never to associate a NEO with
    [None], yet on the scenario database, where NEO B has no name, the
    query name [None] returns B: the guard of the name index lets every
    name through and B is entered under the key [None]. *)
Theorem get_neo_by_name_None_returns_unnamed (T1 T2 : datetime.datetime) :
  ∃ db s',
    NEODatabase.__init__ Scenario.neos Scenario.approaches (Scenario.store T1 T2)
    = Done db s'
    ∧ NEODatabase.get_neo_by_name db None = Some 1
    ∧ NearEarthObject.name (neo_objs s' 1) = None.
Proof.
  eexists _, _. split; [vm_compute; reflexivity|]. split; vm_compute; reflexivity.
Qed.

(** ** Construction and linking *)

(** C3: if some close approach of the collection carries a designation
    that no NEO of the collection carries, construction raises: the
    constructor ends in a [KeyError] for such a designation and returns
    no database. *)
Theorem init_raises_on_unresolved neos cas s :
  (∃ c, c ∈ cas
        ∧ ∀ n, n ∈ neos →
            NearEarthObject.designation (neo_objs s n)
            ≠ CloseApproach.designation (ca_objs s c)) →
  ∃ c s',
    NEODatabase.__init__ neos cas s
    = Raised (KeyError (CloseApproach.designation (ca_objs s c))) s'
    ∧ c ∈ cas
    ∧ ∀ n, n ∈ neos →
        NearEarthObject.designation (neo_objs s n)
        ≠ CloseApproach.designation (ca_objs s c).
Proof.
  intros (c & Hc & Hno). apply init_raised.
  intros Hres. destruct (Hres c Hc) as (n & Hn & Hdes). by apply (Hno n).
Qed.

(** The scenario without NEO B: B's approach does not resolve. *)
Lemma init_raises_on_unresolved_witness :
  ∃ c s',
    NEODatabase.__init__ [0] [0; 1] (Scenario.store Scenario.T1 Scenario.T2)
    = Raised (KeyError (CloseApproach.designation
                          (ca_objs (Scenario.store Scenario.T1 Scenario.T2) c))) s'
    ∧ c ∈ [0; 1]
    ∧ ∀ n, n ∈ [0] →
        NearEarthObject.designation
          (neo_objs (Scenario.store Scenario.T1 Scenario.T2) n)
        ≠ CloseApproach.designation
            (ca_objs (Scenario.store Scenario.T1 Scenario.T2) c).
Proof.
  apply (init_raises_on_unresolved [0] [0; 1]
           (Scenario.store Scenario.T1 Scenario.T2)).
  exists 1. split.
  - apply list_elem_of_further, list_elem_of_here.
  - intros n Hn. apply list_elem_of_singleton in Hn. subst n.
    simpl. discriminate.
Defined.

(** C4: after a construction that completed, the database holds the
    input approach collection, and every close approach of that
    collection refers to a NEO, carries that NEO's designation, and its
    [name], [diameter] and [hazardous] attributes exist and hold that
    NEO's values. *)
Theorem init_links_approaches neos cas s db s' :
  NEODatabase.__init__ neos cas s = Done db s' →
  NEODatabase._approaches db = cas
  ∧ ∀ c, c ∈ cas →
      ∃ n, CloseApproach.neo (ca_objs s' c) = Some n
           ∧ CloseApproach.designation (ca_objs s' c)
             = NearEarthObject.designation (neo_objs s' n)
           ∧ CloseApproach.name (ca_objs s' c)
             = Some (NearEarthObject.name (neo_objs s' n))
           ∧ CloseApproach.diameter (ca_objs s' c)
             = Some (NearEarthObject.diameter (neo_objs s' n))
           ∧ CloseApproach.hazardous (ca_objs s' c)
             = Some (NearEarthObject.hazardous (neo_objs s' n)).
Proof.
  intros Hrun.
  pose proof (init_keeps_neo_fields _ _ _ _ _ Hrun) as Hkeep.
  destruct (init_Done_spec _ _ _ _ _ Hrun) as (-> & Hres & Hca & _).
  split; [done|]. intros c Hc.
  rewrite Hca, decide_True by done.
  destruct (proj1 (resolvable_lookup s neos cas) Hres c Hc) as [n Hn].
  pose proof (build_des_dic_Some _ _ _ _ Hn) as [_ Hdes].
  exists n. destruct (Hkeep n) as (-> & -> & -> & ->).
  unfold linked. rewrite Hn. by rewrite link_fields_designation.
Qed.

Lemma init_links_approaches_witness :
  ∃ db s',
    NEODatabase.__init__ Scenario.neos Scenario.approaches
      (Scenario.store Scenario.T1 Scenario.T2) = Done db s'
    ∧ NEODatabase._approaches db = Scenario.approaches
    ∧ ∀ c, c ∈ Scenario.approaches →
        ∃ n, CloseApproach.neo (ca_objs s' c) = Some n
             ∧ CloseApproach.designation (ca_objs s' c)
               = NearEarthObject.designation (neo_objs s' n)
             ∧ CloseApproach.name (ca_objs s' c)
               = Some (NearEarthObject.name (neo_objs s' n))
             ∧ CloseApproach.diameter (ca_objs s' c)
               = Some (NearEarthObject.diameter (neo_objs s' n))
             ∧ CloseApproach.hazardous (ca_objs s' c)
               = Some (NearEarthObject.hazardous (neo_objs s' n)).
Proof.
  eexists _, _. split.
  - vm_compute. reflexivity.
  - apply (init_links_approaches Scenario.neos Scenario.approaches
             (Scenario.store Scenario.T1 Scenario.T2)).
    vm_compute. reflexivity.
Defined.

(** C5: after a construction that completed, the database holds the
    input NEO collection, and the [approaches] field of every NEO of
    that collection is the input approach collection filtered, in
    order, by "the approach's designation is this NEO's designation". *)
Theorem init_links_neos neos cas s db s' :
  NEODatabase.__init__ neos cas s = Done db s' →
  NEODatabase._neos db = neos
  ∧ ∀ n, n ∈ neos →
      NearEarthObject.approaches (neo_objs s' n)
      = filter (λ c, CloseApproach.designation (ca_objs s' c)
                     = NearEarthObject.designation (neo_objs s' n)) cas.
Proof.
  intros Hrun.
  pose proof (init_keeps_neo_fields _ _ _ _ _ Hrun) as Hkeep.
  pose proof (init_keeps_ca_designation _ _ _ _ _ Hrun) as Hkeepc.
  destruct (init_Done_spec _ _ _ _ _ Hrun) as (-> & _ & _ & Hneo).
  split; [done|]. intros n Hn.
  rewrite Hneo at 1. rewrite decide_True by done. simpl.
  symmetry. apply approaches_of_ext; [done|]. apply Hkeep.
Qed.

Lemma init_links_neos_witness :
  ∃ db s',
    NEODatabase.__init__ Scenario.neos Scenario.approaches
      (Scenario.store Scenario.T1 Scenario.T2) = Done db s'
    ∧ NEODatabase._neos db = Scenario.neos
    ∧ ∀ n, n ∈ Scenario.neos →
        NearEarthObject.approaches (neo_objs s' n)
        = filter (λ c, CloseApproach.designation (ca_objs s' c)
                       = NearEarthObject.designation (neo_objs s' n))
                 Scenario.approaches.
Proof.
  eexists _, _. split.
  - vm_compute. reflexivity.
  - apply (init_links_neos Scenario.neos Scenario.approaches
             (Scenario.store Scenario.T1 Scenario.T2)).
    vm_compute. reflexivity.
Defined.

(** C8: when two NEOs of the input collection carry the same designation
    (the later one being the last to carry it), construction over a data
    set whose approaches all resolve completes without raising, and
    [get_neo_by_designation] answers that designation with the later
    NEO. *)
Theorem duplicate_designation_last_wins l1 a l2 b l3 cas s d :
  NearEarthObject.designation (neo_objs s a) = d →
  NearEarthObject.designation (neo_objs s b) = d →
  (∀ x, x ∈ l3 → NearEarthObject.designation (neo_objs s x) ≠ d) →
  resolvable s (l1 ++ a :: l2 ++ b :: l3) cas →
  ∃ db s',
    NEODatabase.__init__ (l1 ++ a :: l2 ++ b :: l3) cas s = Done db s'
    ∧ NEODatabase.get_neo_by_designation db d = Some b.
Proof.
  intros Ha Hb Hl3 Hres.
  destruct (init_done _ cas s Hres) as (s' & Hrun & _).
  eexists _, s'. split; [exact Hrun|].
  unfold NEODatabase.get_neo_by_designation. simpl.
  rewrite <- Hb in Hl3 |- *. clear Ha Hb Hres Hrun.
  replace (l1 ++ a :: l2 ++ b :: l3) with ((l1 ++ a :: l2) ++ b :: l3)
    by (by rewrite <- app_assoc).
  by apply build_des_dic_last.
Qed.

Lemma duplicate_designation_last_wins_witness :
  ∃ db s',
    NEODatabase.__init__ ([] ++ 0 :: [] ++ 1 :: []) Duplicates.approaches
      Duplicates.store = Done db s'
    ∧ NEODatabase.get_neo_by_designation db "2000 AB"%string = Some 1.
Proof.
  apply (duplicate_designation_last_wins [] 0 [] 1 [] Duplicates.approaches
           Duplicates.store "2000 AB"%string).
  - reflexivity.
  - reflexivity.
  - intros x Hx. by apply not_elem_of_nil in Hx.
  - intros c Hc. exists 0. split.
    + apply list_elem_of_here.
    + reflexivity.
Defined.

(** C10: constructing a second database over collections that a first
    construction has already linked completes, returns the same indices
    and leaves every object as the first construction left it: each
    [approaches] list is assigned again with the same contents and each
    approach gets the same link and the same copied values. *)
Theorem init_idempotent neos cas s db s1 :
  NEODatabase.__init__ neos cas s = Done db s1 →
  ∃ s2, NEODatabase.__init__ neos cas s1 = Done db s2 ∧ store_eq s2 s1.
Proof.
  intros Hrun.
  pose proof (init_keeps_neo_fields _ _ _ _ _ Hrun) as Hkeep.
  pose proof (init_keeps_ca_designation _ _ _ _ _ Hrun) as Hkeepc.
  destruct (init_Done_spec _ _ _ _ _ Hrun) as (-> & Hres & Hca & Hneo).
  assert (Hdic : NEODatabase.build_des_dic s1 neos
                 = NEODatabase.build_des_dic s neos)
    by (apply build_des_dic_ext; intros n; apply Hkeep).
  assert (Hnam : NEODatabase.build_nam_dic s1 neos
                 = NEODatabase.build_nam_dic s neos)
    by (apply build_nam_dic_ext; intros n; apply Hkeep).
  destruct (init_done neos cas s1) as (s2 & Hrun2 & Hca2 & Hneo2).
  { intros c Hc. destruct (Hres c Hc) as (n & Hn & Hdes).
    exists n. split; [done|]. rewrite Hkeepc. by destruct (Hkeep n) as (-> & _). }
  exists s2. rewrite Hrun2, Hdic, Hnam. split; [done|]. split.
  - intros n. rewrite Hneo2. case_decide as Hn; [|done].
    rewrite (approaches_of_ext s1 s cas n) by (done || apply Hkeep).
    rewrite Hneo, decide_True by done. done.
  - intros c. rewrite Hca2, Hdic. case_decide as Hc; [|done].
    rewrite Hca, decide_True by done.
    apply linked_linked. intros n. destruct (Hkeep n) as (_ & -> & -> & ->). done.
Qed.

Lemma init_idempotent_witness :
  ∃ db s1,
    NEODatabase.__init__ Scenario.neos Scenario.approaches
      (Scenario.store Scenario.T1 Scenario.T2) = Done db s1
    ∧ ∃ s2, NEODatabase.__init__ Scenario.neos Scenario.approaches s1
            = Done db s2
            ∧ store_eq s2 s1.
Proof.
  eexists _, _. split.
  - vm_compute. reflexivity.
  - apply (init_idempotent Scenario.neos Scenario.approaches
             (Scenario.store Scenario.T1 Scenario.T2)).
    vm_compute. reflexivity.
Defined.

(** ** The query *)

Lemma restrict_lookup (filters : gmap string pyval) k :
  restrict filters !! k
  = if decide (k ∈ recognized_keys) then filters !! k else None.
Proof.
  unfold restrict. rewrite map_lookup_filter.
  destruct (filters !! k) as [v|]; simpl; [|by case_decide].
  destruct (decide (k ∈ recognized_keys)).
  - by rewrite option_guard_True.
  - by rewrite option_guard_False.
Qed.

Lemma recognized_keys_spec k :
  k ∈ recognized_keys ↔
  k = "date" ∨ k = "start_date" ∨ k = "end_date" ∨ k = "distance_min"
  ∨ k = "distance_max" ∨ k = "velocity_min" ∨ k = "velocity_max"
  ∨ k = "diameter_min" ∨ k = "diameter_max" ∨ k = "hazardous".
Proof.
  unfold recognized_keys. rewrite !elem_of_cons, elem_of_nil. tauto.
Qed.

Section QueryFacts.
Context `{Filters}.

(** The loop body sees the mapping only through the ten keys it tests. *)
Lemma filter_results_ext (f1 f2 : gmap string pyval) s a :
  (∀ k, k ∈ recognized_keys → f1 !! k = f2 !! k) →
  NEODatabase.filter_results f1 s a = NEODatabase.filter_results f2 s a.
Proof.
  intros Hk. unfold NEODatabase.filter_results, NEODatabase.apply_filter.
  rewrite (Hk "date"), (Hk "start_date"), (Hk "end_date"),
    (Hk "distance_min"), (Hk "distance_max"), (Hk "velocity_min"),
    (Hk "velocity_max"), (Hk "diameter_min"), (Hk "diameter_max"),
    (Hk "hazardous") by (apply recognized_keys_spec; tauto).
  done.
Qed.

Lemma scan_ext (f1 f2 : gmap string pyval) s l :
  (∀ k, k ∈ recognized_keys → f1 !! k = f2 !! k) →
  NEODatabase.scan f1 s l = NEODatabase.scan f2 s l.
Proof.
  intros Hk. induction l as [|a l IH]; [done|].
  cbn [NEODatabase.scan]. by rewrite IH, (filter_results_ext f1 f2).
Qed.

(** With no key present, no predicate is built and [all([])] holds. *)
Lemma scan_empty s l : NEODatabase.scan ∅ s l = (l, None).
Proof.
  induction l as [|a l IH]; [done|].
  cbn [NEODatabase.scan]. by rewrite IH.
Qed.
End QueryFacts.

(** C6: on a database whose construction completed, [query] with an empty
    filter mapping yields every close approach of the input collection,
    in input order, without raising; the output is as long as the
    input. *)
Theorem query_no_filters `{Filters} neos cas s db s' :
  NEODatabase.__init__ neos cas s = Done db s' →
  NEODatabase.query db ∅ s' = (cas, None)
  ∧ length (NEODatabase.query db ∅ s').1 = length cas.
Proof.
  intros (-> & _)%init_Done_spec.
  unfold NEODatabase.query. simpl. by rewrite scan_empty.
Qed.

Lemma query_no_filters_witness :
  ∃ db s',
    NEODatabase.__init__ Scenario.neos Scenario.approaches
      (Scenario.store Scenario.T1 Scenario.T2) = Done db s'
    ∧ NEODatabase.query (H := SpecFilters.spec_filters) db ∅ s'
      = (Scenario.approaches, None)
    ∧ length (NEODatabase.query (H := SpecFilters.spec_filters) db ∅ s').1
      = length Scenario.approaches.
Proof.
  eexists _, _. split.
  - vm_compute. reflexivity.
  - apply (query_no_filters (H := SpecFilters.spec_filters)
             Scenario.neos Scenario.approaches
             (Scenario.store Scenario.T1 Scenario.T2)).
    vm_compute. reflexivity.
Defined.

(** C9: for every database, store and filter mapping, [query] behaves on
    the mapping exactly as on its restriction to the ten recognized keys:
    the same approaches are yielded in the same order and the scan ends
    the same way.  Any other key is never looked at. *)
Theorem query_ignores_unrecognized_keys `{Filters} db
    (filters : gmap string pyval) s :
  NEODatabase.query db filters s = NEODatabase.query db (restrict filters) s.
Proof.
  unfold NEODatabase.query. apply scan_ext.
  intros k Hk. by rewrite restrict_lookup, decide_True.
Qed.

(** Adding a key that is not recognized changes nothing. *)
Lemma query_insert_unrecognized `{Filters} db (filters : gmap string pyval) k v s :
  k ∉ recognized_keys →
  NEODatabase.query db (<[k := v]> filters) s = NEODatabase.query db filters s.
Proof.
  intros Hk. unfold NEODatabase.query. apply scan_ext.
  intros k' Hk'. apply lookup_insert_ne. by intros ->.
Qed.

(** *** The hazardous key *)

Section Hazardous.
Context `{Filters}.

(** Under a mapping whose only key is [hazardous], the loop body is the
    last block alone. *)
Lemma filter_results_hazardous_only v s a :
  NEODatabase.filter_results {[ "hazardous"%string := v ]} s a
  = NEODatabase.apply_filter HazardousFilter {[ "hazardous"%string := v ]}
      "hazardous" s a [].
Proof. reflexivity. Qed.

(** A one-element value has no component 1: the block raises before the
    predicate is built, whatever the approach. *)
Lemma filter_results_hazardous_singleton x s a :
  NEODatabase.filter_results {[ "hazardous"%string := PTuple [x] ]} s a
  = Err IndexError.
Proof. reflexivity. Qed.

Lemma scan_hazardous_singleton x s a l :
  NEODatabase.scan {[ "hazardous"%string := PTuple [x] ]} s (a :: l)
  = ([], Some IndexError).
Proof. reflexivity. Qed.
End Hazardous.

(** C2, as the code has it: on the scenario database, for every
    implementation of the predicates whose hazardous predicate compares
    the approach's [hazardous] attribute with its boolean first bound,
    [query] with [{hazardous: (True, x)}], a value of two components
    whose second is arbitrary, yields exactly the approach of NEO A and
    does not raise.  The value has to have two components. *)
Theorem query_hazardous_pair `{Filters} (T1 T2 : datetime.datetime) (x : pyval) :
  (∀ b upper s a h,
     CloseApproach.hazardous (ca_objs s a) = Some h →
     HazardousFilter (PBool b) upper s a = Ok (eqb h b)) →
  ∃ db s',
    NEODatabase.__init__ Scenario.neos Scenario.approaches (Scenario.store T1 T2)
    = Done db s'
    ∧ NEODatabase.query db {[ "hazardous"%string := PTuple [PBool true; x] ]} s'
      = ([0], None).
Proof.
  intros Hhaz. eexists _, _. split; [vm_compute; reflexivity|].
  unfold NEODatabase.query. cbn [NEODatabase._approaches NEODatabase.scan].
  rewrite !filter_results_hazardous_only.
  unfold NEODatabase.apply_filter.
  rewrite lookup_singleton_eq. cbn [py_getitem lookup list_lookup mbind result_bind].
  rewrite (Hhaz true x _ 0 true) by reflexivity.
  rewrite (Hhaz true x _ 1 false) by reflexivity.
  reflexivity.
Qed.

Lemma query_hazardous_pair_witness :
  ∃ db s',
    NEODatabase.__init__ Scenario.neos Scenario.approaches
      (Scenario.store Scenario.T1 Scenario.T2) = Done db s'
    ∧ NEODatabase.query (H := SpecFilters.spec_filters) db
        {[ "hazardous"%string := PTuple [PBool true; PNone] ]} s'
      = ([0], None).
Proof.
  apply (query_hazardous_pair (H := SpecFilters.spec_filters)
           Scenario.T1 Scenario.T2 PNone).
  intros b upper s a h Hh. simpl. rewrite Hh. reflexivity.
Defined.

(** C2, as stated, fails: with the one-element value [(True,)] the scan
    of the scenario database raises [IndexError] at the first approach
    and yields nothing, instead of yielding the approach of NEO A. *)
Lemma query_hazardous_singleton_raises :
  ∃ db s',
    NEODatabase.__init__ Scenario.neos Scenario.approaches
      (Scenario.store Scenario.T1 Scenario.T2) = Done db s'
    ∧ NEODatabase.query (H := SpecFilters.spec_filters) db
        {[ "hazardous"%string := PTuple [PBool true] ]} s'
      = ([], Some IndexError)
    ∧ NEODatabase.query (H := SpecFilters.spec_filters) db
        {[ "hazardous"%string := PTuple [PBool true] ]} s'
      ≠ ([0], None).
Proof.
  eexists _, _. split; [vm_compute; reflexivity|].
  split; [reflexivity | discriminate].
Qed.

(** ** Entity construction *)

Section Construction.
Context `{Builtins}.

End Construction.



(** * Further properties of the code *)

(** ** Point lookups *)

Lemma build_nam_dic_Some s neos k n :
  NEODatabase.build_nam_dic s neos !! k = Some n →
  n ∈ neos ∧ NearEarthObject.name (neo_objs s n) = k.
Proof.
  unfold NEODatabase.build_nam_dic.
  induction neos as [|x l IH] using rev_ind; [done|].
  rewrite foldl_snoc, nam_guard_always, lookup_insert. case_decide as Hk.
  - intros [= <-]. rewrite elem_of_app, list_elem_of_singleton. auto.
  - intros Hl. destruct (IH Hl). rewrite elem_of_app. auto.
Qed.

Lemma build_nam_dic_last s l1 b l3 :
  (∀ x, x ∈ l3 → NearEarthObject.name (neo_objs s x)
                 ≠ NearEarthObject.name (neo_objs s b)) →
  NEODatabase.build_nam_dic s (l1 ++ b :: l3)
    !! NearEarthObject.name (neo_objs s b) = Some b.
Proof.
  unfold NEODatabase.build_nam_dic.
  induction l3 as [|x l IH] using rev_ind; intros Hl3.
  - rewrite foldl_snoc, nam_guard_always. apply lookup_insert_eq.
  - replace (l1 ++ b :: l ++ [x]) with ((l1 ++ b :: l) ++ [x])
      by (by rewrite <- app_assoc).
    rewrite foldl_snoc, nam_guard_always, lookup_insert_ne.
    + apply IH. intros y Hy. apply Hl3. rewrite elem_of_app. auto.
    + apply Hl3. rewrite elem_of_app, list_elem_of_singleton. auto.
Qed.

(** The membership test of [get_neo_by_name] is redundant. *)
Lemma get_neo_by_name_lookup db name :
  NEODatabase.get_neo_by_name db name = NEODatabase.neo_nam_dic db !! name.
Proof.
  unfold NEODatabase.get_neo_by_name. case_bool_decide as Hd; [done|].
  symmetry. by apply not_elem_of_dom.
Qed.

(** X1: on a constructed database [get_neo_by_designation] is an exact
    match: a NEO it returns belongs to the collection and carries the
    queried designation, and it returns [None] exactly when no NEO of
    the collection carries it. *)
Theorem get_neo_by_designation_exact neos cas s db s' d :
  NEODatabase.__init__ neos cas s = Done db s' →
  (∀ n, NEODatabase.get_neo_by_designation db d = Some n →
        n ∈ neos ∧ NearEarthObject.designation (neo_objs s' n) = d)
  ∧ (NEODatabase.get_neo_by_designation db d = None ↔
     ∀ n, n ∈ neos → NearEarthObject.designation (neo_objs s' n) ≠ d).
Proof.
  intros Hrun.
  pose proof (init_keeps_neo_fields _ _ _ _ _ Hrun) as Hkeep.
  destruct (init_Done_spec _ _ _ _ _ Hrun) as (-> & _).
  unfold NEODatabase.get_neo_by_designation. simpl. split.
  - intros n [Hn Hd]%build_des_dic_Some.
    by destruct (Hkeep n) as (-> & _).
  - split.
    + intros Hnone n Hn Hd. destruct (Hkeep n) as (Hdes & _).
      rewrite Hdes in Hd. apply (build_des_dic_is_Some s) in Hn.
      rewrite Hd, Hnone in Hn. by destruct Hn.
    + intros Hno.
      destruct (NEODatabase.build_des_dic s neos !! d) as [n|] eqn:Hl; [|done].
      apply build_des_dic_Some in Hl as [Hn Hd].
      destruct (Hno n Hn). by destruct (Hkeep n) as (-> & _).
Qed.

Lemma get_neo_by_designation_exact_witness :
  ∃ db s',
    NEODatabase.__init__ Scenario.neos Scenario.approaches
      (Scenario.store Scenario.T1 Scenario.T2) = Done db s'
    ∧ (∀ n, NEODatabase.get_neo_by_designation db "2001 XY"%string = Some n →
            n ∈ Scenario.neos
            ∧ NearEarthObject.designation (neo_objs s' n) = "2001 XY"%string)
    ∧ (NEODatabase.get_neo_by_designation db "2001 XY"%string = None ↔
       ∀ n, n ∈ Scenario.neos →
            NearEarthObject.designation (neo_objs s' n) ≠ "2001 XY"%string).
Proof.
  eexists _, _. split.
  - vm_compute. reflexivity.
  - apply (get_neo_by_designation_exact Scenario.neos Scenario.approaches
             (Scenario.store Scenario.T1 Scenario.T2)).
    vm_compute. reflexivity.
Defined.

(** X2: when no two NEOs of the collection share a designation, every
    NEO of a constructed database is found under its own designation. *)
Theorem get_neo_by_designation_roundtrip neos cas s db s' :
  unique_designations s neos →
  NEODatabase.__init__ neos cas s = Done db s' →
  ∀ n, n ∈ neos →
    NEODatabase.get_neo_by_designation db
      (NearEarthObject.designation (neo_objs s' n)) = Some n.
Proof.
  intros Huniq Hrun n Hn.
  destruct (init_keeps_neo_fields _ _ _ _ _ Hrun n) as (-> & _).
  destruct (init_Done_spec _ _ _ _ _ Hrun) as (-> & _).
  unfold NEODatabase.get_neo_by_designation. simpl.
  destruct (build_des_dic_is_Some s neos n Hn) as [m Hm].
  rewrite Hm. f_equal.
  apply build_des_dic_Some in Hm as [Hmn Hd]. by apply Huniq.
Qed.

Lemma scenario_unique_designations T1 T2 :
  unique_designations (Scenario.store T1 T2) Scenario.neos.
Proof.
  intros n1 n2 H1 H2.
  apply elem_of_cons in H1 as [->|H1]; [|apply list_elem_of_singleton in H1 as ->];
  (apply elem_of_cons in H2 as [->|H2]; [|apply list_elem_of_singleton in H2 as ->]);
  done.
Qed.

Lemma get_neo_by_designation_roundtrip_witness :
  ∃ db s',
    NEODatabase.__init__ Scenario.neos Scenario.approaches
      (Scenario.store Scenario.T1 Scenario.T2) = Done db s'
    ∧ ∀ n, n ∈ Scenario.neos →
        NEODatabase.get_neo_by_designation db
          (NearEarthObject.designation (neo_objs s' n)) = Some n.
Proof.
  eexists _, _. split.
  - vm_compute. reflexivity.
  - apply (get_neo_by_designation_roundtrip Scenario.neos Scenario.approaches
             (Scenario.store Scenario.T1 Scenario.T2)).
    + apply scenario_unique_designations.
    + vm_compute. reflexivity.
Defined.

(** X3: on a constructed database [get_neo_by_name] is an exact match on
    the [name] attribute: a NEO it returns belongs to the collection and
    has exactly the queried name, and it returns [None] exactly when no
    NEO of the collection has that name. *)
Theorem get_neo_by_name_exact neos cas s db s' name :
  NEODatabase.__init__ neos cas s = Done db s' →
  (∀ n, NEODatabase.get_neo_by_name db name = Some n →
        n ∈ neos ∧ NearEarthObject.name (neo_objs s' n) = name)
  ∧ (NEODatabase.get_neo_by_name db name = None ↔
     ∀ n, n ∈ neos → NearEarthObject.name (neo_objs s' n) ≠ name).
Proof.
  intros Hrun.
  pose proof (init_keeps_neo_fields _ _ _ _ _ Hrun) as Hkeep.
  destruct (init_Done_spec _ _ _ _ _ Hrun) as (-> & _).
  rewrite get_neo_by_name_lookup. simpl. split.
  - intros n [Hn Hd]%build_nam_dic_Some.
    by destruct (Hkeep n) as (_ & -> & _).
  - split.
    + intros Hnone n Hn Hd. destruct (Hkeep n) as (_ & Hnm & _).
      rewrite Hnm in Hd. apply (build_nam_dic_is_Some s) in Hn.
      rewrite Hd, Hnone in Hn. by destruct Hn.
    + intros Hno.
      destruct (NEODatabase.build_nam_dic s neos !! name) as [n|] eqn:Hl; [|done].
      apply build_nam_dic_Some in Hl as [Hn Hd].
      destruct (Hno n Hn). by destruct (Hkeep n) as (_ & -> & _).
Qed.

Lemma get_neo_by_name_exact_witness :
  ∃ db s',
    NEODatabase.__init__ Scenario.neos Scenario.approaches
      (Scenario.store Scenario.T1 Scenario.T2) = Done db s'
    ∧ (∀ n, NEODatabase.get_neo_by_name db (Some "Apophis"%string) = Some n →
            n ∈ Scenario.neos
            ∧ NearEarthObject.name (neo_objs s' n) = Some "Apophis"%string)
    ∧ (NEODatabase.get_neo_by_name db (Some "Apophis"%string) = None ↔
       ∀ n, n ∈ Scenario.neos →
            NearEarthObject.name (neo_objs s' n) ≠ Some "Apophis"%string).
Proof.
  eexists _, _. split.
  - vm_compute. reflexivity.
  - apply (get_neo_by_name_exact Scenario.neos Scenario.approaches
             (Scenario.store Scenario.T1 Scenario.T2)).
    vm_compute. reflexivity.
Defined.

(** X4: when several NEOs of the collection have the same name, the one
    that comes last in the collection is the one [get_neo_by_name]
    returns. *)
Theorem get_neo_by_name_last_wins l1 b l3 cas s db s' :
  (∀ x, x ∈ l3 → NearEarthObject.name (neo_objs s x)
                 ≠ NearEarthObject.name (neo_objs s b)) →
  NEODatabase.__init__ (l1 ++ b :: l3) cas s = Done db s' →
  NEODatabase.get_neo_by_name db (NearEarthObject.name (neo_objs s b)) = Some b.
Proof.
  intros Hl3 Hrun.
  destruct (init_Done_spec _ _ _ _ _ Hrun) as (-> & _).
  rewrite get_neo_by_name_lookup. simpl. by apply build_nam_dic_last.
Qed.

(** Two NEOs named "Apophis" that differ in designation. *)
Lemma get_neo_by_name_last_wins_witness :
  ∃ db s',
    NEODatabase.__init__ ([0] ++ 1 :: []) []
      (MkStore (λ a, match a with
                     | 0 => Scenario.neo_A
                     | _ => NearEarthObject.Build "99942" (Some "Apophis") nan
                                                  false []
                     end)
               (λ _, Scenario.ca_A Scenario.T1)) = Done db s'
    ∧ NEODatabase.get_neo_by_name db (Some "Apophis"%string) = Some 1.
Proof.
  eexists _, _. split.
  - vm_compute. reflexivity.
  - eapply (get_neo_by_name_last_wins [0] 1 [] []
             (MkStore (λ a, match a with
                            | 0 => Scenario.neo_A
                            | _ => NearEarthObject.Build "99942"
                                     (Some "Apophis") nan false []
                            end)
                      (λ _, Scenario.ca_A Scenario.T1))).
    + intros x Hx. by apply not_elem_of_nil in Hx.
    + vm_compute. reflexivity.
Defined.

(** The constructor never leaves the empty string as a name. *)
Lemma init_name_not_empty `{Builtins} designation name diameter hazardous neo :
  NearEarthObject.__init__ designation name diameter hazardous = Ok neo →
  NearEarthObject.name neo ≠ Some ""%string.
Proof.
  unfold NearEarthObject.__init__, mbind, result_bind.
  destruct (py_str designation) as [des|]; [|done].
  destruct (py_float _) as [d|]; [|done]. intros [= <-]. simpl.
  by case_bool_decide.
Qed.

(** X5: over NEOs whose names are names the constructor produced,
    [get_neo_by_name] answers the empty string with [None]: the
    constructor has turned every empty name into [None], so no entry of
    the name index has the empty string as key. *)
Theorem get_neo_by_name_empty neos cas s db s' :
  (∀ n, n ∈ neos →
     ∃ (B : Builtins) designation name diameter hazardous neo,
       NearEarthObject.__init__ designation name diameter hazardous = Ok neo
       ∧ NearEarthObject.name (neo_objs s n) = NearEarthObject.name neo) →
  NEODatabase.__init__ neos cas s = Done db s' →
  NEODatabase.get_neo_by_name db (Some ""%string) = None.
Proof.
  intros Hctor Hrun.
  destruct (init_Done_spec _ _ _ _ _ Hrun) as (-> & _).
  rewrite get_neo_by_name_lookup. simpl.
  destruct (NEODatabase.build_nam_dic s neos !! Some ""%string) as [n|] eqn:Hl;
    [|done].
  apply build_nam_dic_Some in Hl as [Hn Hname].
  destruct (Hctor n Hn) as (B & des & nm & dm & hz & neo & Hinit & Heq).
  rewrite Heq in Hname. by apply init_name_not_empty in Hinit.
Qed.

(** A one-NEO collection whose NEO was passed the empty string as name. *)
Lemma get_neo_by_name_empty_witness :
  ∃ db s',
    NEODatabase.__init__ [0] []
      (MkStore (λ _, NearEarthObject.Build "2001 XY" None nan false [])
               (λ _, Scenario.ca_A Scenario.T1)) = Done db s'
    ∧ NEODatabase.get_neo_by_name db (Some ""%string) = None.
Proof.
  eexists _, _. split.
  - vm_compute. reflexivity.
  - eapply (get_neo_by_name_empty [0] []
             (MkStore (λ _, NearEarthObject.Build "2001 XY" None nan false [])
                      (λ _, Scenario.ca_A Scenario.T1))).
    + intros n _.
      exists no_parse, (PStr "2001 XY"), (Some ""%string), (PStr ""), (PStr "N").
      eexists. split; reflexivity.
    + vm_compute. reflexivity.
Defined.

(** ** Construction: when it completes, how it fails *)

Lemma for_each_app {X} (l1 l2 : list X) body s :
  for_each (l1 ++ l2) body s
  = match for_each l1 body s with
    | Done _ s1 => for_each l2 body s1
    | Raised e s1 => Raised e s1
    end.
Proof.
  revert s. induction l1 as [|x l1 IH]; intros s; [done|].
  simpl. unfold mbind, M_bind. destruct (body x s); [apply IH | done].
Qed.

(** X6: construction completes exactly on the consistent data sets, those
    in which every approach carries the designation of some NEO of the
    collection. *)
Theorem init_completes_iff_resolvable neos cas s :
  (∃ db s', NEODatabase.__init__ neos cas s = Done db s')
  ↔ resolvable s neos cas.
Proof.
  split.
  - intros (db & s' & Hrun). by eapply init_Done_inv.
  - intros Hres. destruct (init_done neos cas s Hres) as (s' & Hrun & _). eauto.
Qed.

(** X7: the only exception construction raises is the [KeyError] of the
    designation lookup, and its key is the designation of an approach of
    the collection that no NEO of the collection carries. *)
Theorem init_raises_only_KeyError neos cas s e s' :
  NEODatabase.__init__ neos cas s = Raised e s' →
  ∃ c, c ∈ cas
       ∧ e = KeyError (CloseApproach.designation (ca_objs s c))
       ∧ ∀ n, n ∈ neos →
           NearEarthObject.designation (neo_objs s n)
           ≠ CloseApproach.designation (ca_objs s c).
Proof.
  intros Hrun.
  set (dic := NEODatabase.build_des_dic s neos).
  destruct (decide (Forall (λ c, is_Some (dic !! CloseApproach.designation
                                            (ca_objs s c))) cas)) as [Hall|Hnall].
  - destruct (init_done neos cas s) as (s'' & Hdone & _); [|congruence].
    apply resolvable_lookup. by apply Forall_forall.
  - destruct (init_raised neos cas s) as (c & s'' & Hr & Hc & Hno).
    + intros Hres. apply Hnall, Forall_forall.
      exact (proj1 (resolvable_lookup s neos cas) Hres).
    + rewrite Hrun in Hr. injection Hr as -> ->. eauto.
Qed.

Lemma init_raises_only_KeyError_witness :
  ∃ e s',
    NEODatabase.__init__ [0] [0; 1] (Scenario.store Scenario.T1 Scenario.T2)
    = Raised e s'
    ∧ ∃ c, c ∈ [0; 1]
           ∧ e = KeyError (CloseApproach.designation
                             (ca_objs (Scenario.store Scenario.T1 Scenario.T2) c))
           ∧ ∀ n, n ∈ [0] →
               NearEarthObject.designation
                 (neo_objs (Scenario.store Scenario.T1 Scenario.T2) n)
               ≠ CloseApproach.designation
                   (ca_objs (Scenario.store Scenario.T1 Scenario.T2) c).
Proof.
  eexists _, _. split.
  - vm_compute. reflexivity.
  - eapply (init_raises_only_KeyError [0] [0; 1]
              (Scenario.store Scenario.T1 Scenario.T2)).
    vm_compute. reflexivity.
Defined.

(** X8: a failed construction is not undone.  When the approaches before
    the first unresolved one all resolve, construction raises the
    [KeyError] of that first unresolved approach, and in the store it
    leaves behind the approaches before it are linked, every other
    approach is as it was, and no NEO has been touched. *)
Theorem init_failure_leaves_prefix_linked neos pre c post s :
  (∀ p, p ∈ pre →
     ∃ n, n ∈ neos
          ∧ NearEarthObject.designation (neo_objs s n)
            = CloseApproach.designation (ca_objs s p)) →
  (∀ n, n ∈ neos →
     NearEarthObject.designation (neo_objs s n)
     ≠ CloseApproach.designation (ca_objs s c)) →
  ∃ s',
    NEODatabase.__init__ neos (pre ++ c :: post) s
    = Raised (KeyError (CloseApproach.designation (ca_objs s c))) s'
    ∧ (∀ n, neo_objs s' n = neo_objs s n)
    ∧ (∀ a, ca_objs s' a
            = if decide (a ∈ pre)
              then linked (NEODatabase.build_des_dic s neos)
                          (neo_objs s) (ca_objs s a)
              else ca_objs s a).
Proof.
  intros Hpre Hc.
  set (dic := NEODatabase.build_des_dic s neos).
  destruct (link_loop_done dic pre s) as (s1 & Hrun1 & Hneo1 & Hca1).
  { apply resolvable_lookup. exact Hpre. }
  assert (Hdes : CloseApproach.designation (ca_objs s1 c)
                 = CloseApproach.designation (ca_objs s c)).
  { rewrite Hca1. case_decide; [apply linked_designation | done]. }
  assert (Hnone : dic !! CloseApproach.designation (ca_objs s c) = None).
  { destruct (dic !! _) as [n|] eqn:Hl; [|done].
    apply build_des_dic_Some in Hl as [Hn Hd]. by destruct (Hc n Hn). }
  exists s1. split_and!.
  - unfold NEODatabase.__init__, mbind, M_bind, gets. fold dic.
    rewrite for_each_app, Hrun1. cbn [for_each]. unfold mbind, M_bind.
    by rewrite link_approach_step, Hdes, Hnone.
  - intros n. by rewrite Hneo1.
  - exact Hca1.
Qed.

Lemma init_failure_leaves_prefix_linked_witness :
  ∃ s',
    NEODatabase.__init__ [0] ([0] ++ 1 :: [])
      (Scenario.store Scenario.T1 Scenario.T2)
    = Raised (KeyError (CloseApproach.designation
                          (ca_objs (Scenario.store Scenario.T1 Scenario.T2) 1))) s'
    ∧ (∀ n, neo_objs s' n
            = neo_objs (Scenario.store Scenario.T1 Scenario.T2) n)
    ∧ (∀ a, ca_objs s' a
            = if decide (a ∈ [0])
              then linked (NEODatabase.build_des_dic
                             (Scenario.store Scenario.T1 Scenario.T2) [0])
                          (neo_objs (Scenario.store Scenario.T1 Scenario.T2))
                          (ca_objs (Scenario.store Scenario.T1 Scenario.T2) a)
              else ca_objs (Scenario.store Scenario.T1 Scenario.T2) a).
Proof.
  apply (init_failure_leaves_prefix_linked [0] [0] 1 []
           (Scenario.store Scenario.T1 Scenario.T2)).
  - intros p Hp. apply list_elem_of_singleton in Hp. subst p.
    exists 0. split; [apply list_elem_of_here | reflexivity].
  - intros n Hn. apply list_elem_of_singleton in Hn. subst n.
    simpl. discriminate.
Defined.

(** ** Construction: what it writes and what it leaves alone *)

Lemma linked_primary dic N ca :
  CloseApproach.time (linked dic N ca) = CloseApproach.time ca
  ∧ CloseApproach.distance (linked dic N ca) = CloseApproach.distance ca
  ∧ CloseApproach.velocity (linked dic N ca) = CloseApproach.velocity ca.
Proof. unfold linked. by destruct (dic !! _). Qed.

(** X9: construction only writes link fields.  It changes no
    designation, name, diameter or hazard flag of any NEO and no
    designation, time, distance or velocity of any approach. *)
Theorem init_keeps_primary_fields neos cas s db s' :
  NEODatabase.__init__ neos cas s = Done db s' →
  (∀ n, NearEarthObject.designation (neo_objs s' n)
        = NearEarthObject.designation (neo_objs s n)
        ∧ NearEarthObject.name (neo_objs s' n)
          = NearEarthObject.name (neo_objs s n)
        ∧ NearEarthObject.diameter (neo_objs s' n)
          = NearEarthObject.diameter (neo_objs s n)
        ∧ NearEarthObject.hazardous (neo_objs s' n)
          = NearEarthObject.hazardous (neo_objs s n))
  ∧ (∀ c, CloseApproach.designation (ca_objs s' c)
          = CloseApproach.designation (ca_objs s c)
          ∧ CloseApproach.time (ca_objs s' c) = CloseApproach.time (ca_objs s c)
          ∧ CloseApproach.distance (ca_objs s' c)
            = CloseApproach.distance (ca_objs s c)
          ∧ CloseApproach.velocity (ca_objs s' c)
            = CloseApproach.velocity (ca_objs s c)).
Proof.
  intros Hrun. destruct (init_Done_spec _ _ _ _ _ Hrun) as (_ & _ & Hca & Hneo).
  split.
  - intros n. rewrite Hneo. by case_decide.
  - intros c. rewrite Hca. case_decide; [|done].
    split; [apply linked_designation | apply linked_primary].
Qed.

Lemma init_keeps_primary_fields_witness :
  ∃ db s',
    NEODatabase.__init__ Scenario.neos Scenario.approaches
      (Scenario.store Scenario.T1 Scenario.T2) = Done db s'
    ∧ (∀ n, NearEarthObject.designation (neo_objs s' n)
            = NearEarthObject.designation
                (neo_objs (Scenario.store Scenario.T1 Scenario.T2) n)
            ∧ NearEarthObject.name (neo_objs s' n)
              = NearEarthObject.name
                  (neo_objs (Scenario.store Scenario.T1 Scenario.T2) n)
            ∧ NearEarthObject.diameter (neo_objs s' n)
              = NearEarthObject.diameter
                  (neo_objs (Scenario.store Scenario.T1 Scenario.T2) n)
            ∧ NearEarthObject.hazardous (neo_objs s' n)
              = NearEarthObject.hazardous
                  (neo_objs (Scenario.store Scenario.T1 Scenario.T2) n))
    ∧ (∀ c, CloseApproach.designation (ca_objs s' c)
            = CloseApproach.designation
                (ca_objs (Scenario.store Scenario.T1 Scenario.T2) c)
            ∧ CloseApproach.time (ca_objs s' c)
              = CloseApproach.time
                  (ca_objs (Scenario.store Scenario.T1 Scenario.T2) c)
            ∧ CloseApproach.distance (ca_objs s' c)
              = CloseApproach.distance
                  (ca_objs (Scenario.store Scenario.T1 Scenario.T2) c)
            ∧ CloseApproach.velocity (ca_objs s' c)
              = CloseApproach.velocity
                  (ca_objs (Scenario.store Scenario.T1 Scenario.T2) c)).
Proof.
  eexists _, _. split.
  - vm_compute. reflexivity.
  - eapply (init_keeps_primary_fields Scenario.neos Scenario.approaches
             (Scenario.store Scenario.T1 Scenario.T2)).
    vm_compute. reflexivity.
Defined.

(** X10: construction touches no object outside the two collections it
    is given: a NEO that is not in [neos] and an approach that is not in
    [cas] are left exactly as they were. *)
Theorem init_frame neos cas s db s' :
  NEODatabase.__init__ neos cas s = Done db s' →
  (∀ n, n ∉ neos → neo_objs s' n = neo_objs s n)
  ∧ (∀ c, c ∉ cas → ca_objs s' c = ca_objs s c).
Proof.
  intros Hrun. destruct (init_Done_spec _ _ _ _ _ Hrun) as (_ & _ & Hca & Hneo).
  split.
  - intros n Hn. by rewrite Hneo, decide_False.
  - intros c Hc. by rewrite Hca, decide_False.
Qed.

Lemma init_frame_witness :
  ∃ db s',
    NEODatabase.__init__ [0] [0] (Scenario.store Scenario.T1 Scenario.T2)
    = Done db s'
    ∧ (∀ n, n ∉ [0] →
         neo_objs s' n = neo_objs (Scenario.store Scenario.T1 Scenario.T2) n)
    ∧ (∀ c, c ∉ [0] →
         ca_objs s' c = ca_objs (Scenario.store Scenario.T1 Scenario.T2) c).
Proof.
  eexists _, _. split.
  - vm_compute. reflexivity.
  - eapply (init_frame [0] [0] (Scenario.store Scenario.T1 Scenario.T2)).
    vm_compute. reflexivity.
Defined.

(** X11: the two directions of the link agree.  After a completed
    construction, the NEO an approach of the database refers to belongs
    to the NEO collection and lists that approach among its
    [approaches]. *)
Theorem init_backlink neos cas s db s' :
  NEODatabase.__init__ neos cas s = Done db s' →
  ∀ c n, c ∈ cas → CloseApproach.neo (ca_objs s' c) = Some n →
    n ∈ neos ∧ c ∈ NearEarthObject.approaches (neo_objs s' n).
Proof.
  intros Hrun c n Hc.
  destruct (init_Done_spec _ _ _ _ _ Hrun) as (_ & Hres & Hca & Hneo).
  rewrite Hca, decide_True by done.
  destruct (proj1 (resolvable_lookup s neos cas) Hres c Hc) as [m Hm].
  unfold linked. rewrite Hm. simpl. intros [= <-].
  apply build_des_dic_Some in Hm as [Hmn Hd]. split; [done|].
  rewrite Hneo, decide_True by done. simpl.
  apply list_elem_of_filter. auto.
Qed.

Lemma init_backlink_witness :
  ∃ db s',
    NEODatabase.__init__ Scenario.neos Scenario.approaches
      (Scenario.store Scenario.T1 Scenario.T2) = Done db s'
    ∧ ∀ c n, c ∈ Scenario.approaches →
        CloseApproach.neo (ca_objs s' c) = Some n →
        n ∈ Scenario.neos ∧ c ∈ NearEarthObject.approaches (neo_objs s' n).
Proof.
  eexists _, _. split.
  - vm_compute. reflexivity.
  - eapply (init_backlink Scenario.neos Scenario.approaches
             (Scenario.store Scenario.T1 Scenario.T2)).
    vm_compute. reflexivity.
Defined.

(** X12: when no two NEOs of the collection share a designation, the
    [approaches] list of a NEO of a constructed database holds exactly
    the approaches of the database that refer to that NEO. *)
Theorem init_approaches_are_referrers neos cas s db s' :
  unique_designations s neos →
  NEODatabase.__init__ neos cas s = Done db s' →
  ∀ n c, n ∈ neos →
    (c ∈ NearEarthObject.approaches (neo_objs s' n)
     ↔ c ∈ cas ∧ CloseApproach.neo (ca_objs s' c) = Some n).
Proof.
  intros Huniq Hrun n c Hn.
  destruct (init_Done_spec _ _ _ _ _ Hrun) as (_ & Hres & Hca & Hneo).
  rewrite Hneo, decide_True by done. simpl.
  unfold NEODatabase.approaches_of. rewrite list_elem_of_filter.
  split.
  - intros [Hd Hc]. split; [done|].
    rewrite Hca, decide_True by done.
    destruct (proj1 (resolvable_lookup s neos cas) Hres c Hc) as [m Hm].
    unfold linked. rewrite Hm. simpl. f_equal.
    apply build_des_dic_Some in Hm as [Hmn Hdm].
    apply Huniq; [done..|]. by rewrite Hdm.
  - intros [Hc Hlink]. split; [|done].
    rewrite Hca, decide_True in Hlink by done.
    destruct (proj1 (resolvable_lookup s neos cas) Hres c Hc) as [m Hm].
    unfold linked in Hlink. rewrite Hm in Hlink. simpl in Hlink.
    injection Hlink as ->. by apply build_des_dic_Some in Hm as [_ <-].
Qed.

Lemma init_approaches_are_referrers_witness :
  ∃ db s',
    NEODatabase.__init__ Scenario.neos Scenario.approaches
      (Scenario.store Scenario.T1 Scenario.T2) = Done db s'
    ∧ ∀ n c, n ∈ Scenario.neos →
        (c ∈ NearEarthObject.approaches (neo_objs s' n)
         ↔ c ∈ Scenario.approaches
           ∧ CloseApproach.neo (ca_objs s' c) = Some n).
Proof.
  eexists _, _. split.
  - vm_compute. reflexivity.
  - eapply (init_approaches_are_referrers Scenario.neos Scenario.approaches
             (Scenario.store Scenario.T1 Scenario.T2)).
    + apply scenario_unique_designations.
    + vm_compute. reflexivity.
Defined.

(** ** The query: composition of the blocks *)

Section Blocks.
Context `{Filters}.

Lemma filter_results_run_blocks filters s a :
  NEODatabase.filter_results filters s a = run_blocks blocks filters s a [].
Proof.
  unfold NEODatabase.filter_results, blocks. cbn [run_blocks].
  unfold mbind, result_bind.
  repeat match goal with
         | |- context [NEODatabase.apply_filter ?F ?f ?k ?s ?a ?r] =>
             destruct (NEODatabase.apply_filter F f k s a r); [|done]
         end.
  done.
Qed.

(** What one block does to the list of results. *)
Lemma apply_filter_cases F filters key s a acc r :
  NEODatabase.apply_filter F filters key s a acc = Ok r →
  (filters !! key = None ∧ r = acc)
  ∨ (∃ v lower upper b,
       filters !! key = Some v ∧ py_getitem v 0 = Ok lower
       ∧ py_getitem v 1 = Ok upper ∧ F lower upper s a = Ok b
       ∧ r = acc ++ [b]).
Proof.
  unfold NEODatabase.apply_filter.
  destruct (filters !! key) as [v|]; [|intros [= <-]; by left].
  unfold mbind, result_bind.
  destruct (py_getitem v 0) as [lower|] eqn:Hlo; [|done].
  destruct (py_getitem v 1) as [upper|] eqn:Hhi; [|done].
  destruct (F lower upper s a) as [b|] eqn:HF; [|done].
  intros [= <-]. right. exists v, lower, upper, b. split_and!; done.
Qed.

Lemma all_snoc acc b :
  NEODatabase.all (acc ++ [b]) = NEODatabase.all acc && b.
Proof.
  unfold NEODatabase.all. rewrite forallb_app. simpl. by rewrite andb_true_r.
Qed.

(** The results are all true exactly when every block holds. *)
Lemma run_blocks_all bs filters s a : ∀ acc r,
  run_blocks bs filters s a acc = Ok r →
  (NEODatabase.all r = true ↔
   NEODatabase.all acc = true
   ∧ ∀ k F, (k, F) ∈ bs → block_holds F filters k s a).
Proof.
  induction bs as [|[k F] bs IH]; intros acc r.
  - intros [= <-]. split; [|tauto]. intros Hacc. split; [done|].
    intros k F Hk. by apply elem_of_nil in Hk.
  - cbn [run_blocks]. unfold mbind, result_bind.
    destruct (NEODatabase.apply_filter F filters k s a acc) as [r1|] eqn:Hb;
      [|done].
    intros Hrun. rewrite (IH _ _ Hrun).
    apply apply_filter_cases in Hb
      as [[Hnone ->] | (v & lo & hi & b & Hv & Hlo & Hhi & HF & ->)].
    + split; intros [Hacc Hall]; (split; [done|]); intros k' F' Hk'.
      * apply elem_of_cons in Hk' as [[= -> ->]|Hk']; [|by apply Hall].
        intros v Hv. congruence.
      * apply Hall. by apply list_elem_of_further.
    + rewrite all_snoc, andb_true_iff.
      split.
      * intros [[Hacc ->] Hall]. split; [done|]. intros k' F' Hk'.
        apply elem_of_cons in Hk' as [[= -> ->]|Hk']; [|by apply Hall].
        intros v' Hv'. rewrite Hv in Hv'. injection Hv' as <-.
        by exists lo, hi.
      * intros [Hacc Hall]. split; [split; [done|]|].
        -- destruct (Hall k F (list_elem_of_here _ _) v Hv)
             as (lo' & hi' & Hlo' & Hhi' & HF').
           congruence.
        -- intros k' F' Hk'. apply Hall. by apply list_elem_of_further.
Qed.

(** A block whose value lacks a component makes the whole body raise. *)
Lemma run_blocks_malformed bs filters s a k F v : ∀ acc,
  (k, F) ∈ bs → filters !! k = Some v →
  (∃ e, py_getitem v 0 = Err e) ∨ (∃ e, py_getitem v 1 = Err e) →
  ∃ e, run_blocks bs filters s a acc = Err e.
Proof.
  intros acc Hk Hv Hbad. revert acc.
  induction bs as [|[k' F'] bs IH]; intros acc; [by apply elem_of_nil in Hk|].
  cbn [run_blocks]. unfold mbind, result_bind.
  destruct (NEODatabase.apply_filter F' filters k' s a acc) as [r1|] eqn:Hb;
    [|eauto].
  apply elem_of_cons in Hk as [[= <- <-]|Hk]; [|by apply IH].
  apply apply_filter_cases in Hb
    as [[Hnone _] | (v' & lo & hi & b & Hv' & Hlo & Hhi & _)]; [congruence|].
  rewrite Hv in Hv'. injection Hv' as <-.
  destruct Hbad as [[e He]|[e He]]; congruence.
Qed.

(** Adding a key that was absent adds one result and removes none. *)
Lemma run_blocks_insert bs (filters : gmap string pyval) k v s a :
  filters !! k = None →
  ∀ acc2 acc1 r2,
    run_blocks bs (<[k := v]> filters) s a acc2 = Ok r2 →
    (NEODatabase.all acc2 = true → NEODatabase.all acc1 = true) →
    ∃ r1, run_blocks bs filters s a acc1 = Ok r1
          ∧ (NEODatabase.all r2 = true → NEODatabase.all r1 = true).
Proof.
  intros Hnone. induction bs as [|[k' F'] bs IH]; intros acc2 acc1 r2.
  - intros [= <-] Hacc. eauto.
  - cbn [run_blocks]. unfold mbind, result_bind.
    destruct (NEODatabase.apply_filter F' (<[k := v]> filters) k' s a acc2)
      as [r|] eqn:Hb; [|done].
    intros Hrun Hacc.
    destruct (decide (k' = k)) as [->|Hne].
    + unfold NEODatabase.apply_filter at 1. rewrite Hnone.
      apply (IH _ _ _ Hrun).
      apply apply_filter_cases in Hb
        as [[_ ->] | (v' & lo & hi & b & _ & _ & _ & _ & ->)]; [done|].
      rewrite all_snoc, andb_true_iff. tauto.
    + apply apply_filter_cases in Hb
        as [[Hl ->] | (v' & lo & hi & b & Hl & Hlo & Hhi & HF & ->)];
        rewrite lookup_insert_ne in Hl by done;
        unfold NEODatabase.apply_filter at 1; rewrite Hl.
      * by apply (IH _ _ _ Hrun).
      * unfold mbind, result_bind. rewrite Hlo, Hhi, HF.
        apply (IH _ _ _ Hrun). rewrite !all_snoc, !andb_true_iff. tauto.
Qed.

Lemma recognized_key_block k :
  k ∈ recognized_keys → ∃ F, (k, F) ∈ blocks.
Proof.
  intros Hk. apply recognized_keys_spec in Hk. unfold blocks.
  repeat (destruct Hk as [->|Hk];
          [eexists; repeat (apply list_elem_of_here
                            || apply list_elem_of_further)|]).
  subst k. eexists. repeat (apply list_elem_of_here || apply list_elem_of_further).
Qed.
End Blocks.

(** X13: [query] yields a sublist of the approach collection of the
    database: every approach it yields is one of the database, they come
    in the order of the collection, and none is yielded more often than
    it occurs there; this also holds for the approaches yielded before
    an exception. *)
Theorem query_yields_sublist `{Filters} db (filters : gmap string pyval) s :
  sublist (NEODatabase.query db filters s).1 (NEODatabase._approaches db).
Proof.
  unfold NEODatabase.query.
  induction (NEODatabase._approaches db) as [|a l IH]; [constructor|].
  cbn [NEODatabase.scan].
  destruct (NEODatabase.filter_results filters s a) as [r|].
  - destruct (NEODatabase.scan filters s l) as [ys e]. simpl in *.
    destruct (NEODatabase.all r); by constructor.
  - simpl. apply sublist_nil_l.
Qed.

(** X14: adding a filter under a key that was not in the mapping never
    adds a result: what the extended query yields is a sublist of what
    the original query yields. *)
Theorem query_add_filter_narrows `{Filters} db (filters : gmap string pyval)
    k v s :
  filters !! k = None →
  sublist (NEODatabase.query db (<[k := v]> filters) s).1
          (NEODatabase.query db filters s).1.
Proof.
  intros Hnone. unfold NEODatabase.query.
  induction (NEODatabase._approaches db) as [|a l IH]; [constructor|].
  cbn [NEODatabase.scan].
  destruct (NEODatabase.filter_results (<[k := v]> filters) s a) as [r2|] eqn:H2;
    [|apply sublist_nil_l].
  rewrite filter_results_run_blocks in H2.
  destruct (run_blocks_insert blocks filters k v s a Hnone [] [] r2 H2)
    as (r1 & H1 & Himp); [done|].
  rewrite filter_results_run_blocks, H1.
  destruct (NEODatabase.scan (<[k := v]> filters) s l) as [ys2 e2].
  destruct (NEODatabase.scan filters s l) as [ys1 e1]. simpl in *.
  destruct (NEODatabase.all r2).
  - rewrite Himp by done. by constructor.
  - destruct (NEODatabase.all r1); [by constructor | done].
Qed.

Lemma query_add_filter_narrows_witness :
  sublist
    (NEODatabase.query (H := SpecFilters.spec_filters)
       (NEODatabase.Build Scenario.neos Scenario.approaches ∅ ∅)
       (<["distance_max"%string
          := PTuple [PNone; PFloat (Scenario.float_lit 7205759403792794 (-56))]]>
          ∅)
       (Scenario.store Scenario.T1 Scenario.T2)).1
    (NEODatabase.query (H := SpecFilters.spec_filters)
       (NEODatabase.Build Scenario.neos Scenario.approaches ∅ ∅)
       ∅ (Scenario.store Scenario.T1 Scenario.T2)).1.
Proof.
  apply (query_add_filter_narrows (H := SpecFilters.spec_filters)).
  reflexivity.
Defined.

(** X15: the blocks are composed with "and".  When the scan ends without
    an exception, an approach is yielded exactly when it is in the
    collection and, for each of the ten keys that is present, both
    components of the value exist and the predicate built from them
    returns a true value for the approach. *)
Theorem query_yields_iff_all_hold `{Filters} db (filters : gmap string pyval)
    s ys :
  NEODatabase.query db filters s = (ys, None) →
  ∀ a, a ∈ ys ↔
       a ∈ NEODatabase._approaches db
       ∧ ∀ k F, (k, F) ∈ blocks → block_holds F filters k s a.
Proof.
  unfold NEODatabase.query.
  revert ys. induction (NEODatabase._approaches db) as [|a0 l IH]; intros ys.
  - intros [= <-] a. split; [by intros ?%elem_of_nil|].
    by intros [?%elem_of_nil _].
  - cbn [NEODatabase.scan].
    destruct (NEODatabase.filter_results filters s a0) as [r|] eqn:Hr; [|done].
    destruct (NEODatabase.scan filters s l) as [ys' e'].
    intros [= <- ->] a. specialize (IH ys' eq_refl).
    rewrite filter_results_run_blocks in Hr.
    pose proof (run_blocks_all _ _ _ _ _ _ Hr) as Hall.
    destruct (NEODatabase.all r).
    + rewrite !elem_of_cons, IH. split.
      * intros [->|[Hl Hb]]; [|tauto]. split; [by left|]. by apply Hall.
      * intros [[->|Hl] Hb]; [by left | tauto].
    + rewrite elem_of_cons, IH. split; [tauto|].
      intros [[->|Hl] Hb]; [|tauto].
      assert (false = true) by (apply Hall; done). done.
Qed.

Lemma query_yields_iff_all_hold_witness :
  0 ∈ [0] ↔
  0 ∈ NEODatabase._approaches
        (NEODatabase.Build Scenario.neos Scenario.approaches ∅ ∅)
  ∧ ∀ k F, (k, F) ∈ blocks (H := SpecFilters.spec_filters) →
      block_holds F
        (<["distance_max"%string
           := PTuple [PNone;
                      PFloat (Scenario.float_lit 7205759403792794 (-56))]]>
           ∅)
        k (Scenario.store Scenario.T1 Scenario.T2) 0.
Proof.
  apply (query_yields_iff_all_hold (H := SpecFilters.spec_filters)
           (NEODatabase.Build Scenario.neos Scenario.approaches ∅ ∅)
           (<["distance_max"%string
              := PTuple [PNone;
                         PFloat (Scenario.float_lit 7205759403792794 (-56))]]>
              ∅)
           (Scenario.store Scenario.T1 Scenario.T2) [0]).
  reflexivity.
Defined.

(** X16: the values of the filter mapping are not validated up front.  A
    value under a recognized key that has no component 0 or no component
    1 makes the scan raise at the first approach, so nothing is yielded;
    over an empty collection the same mapping goes unnoticed. *)
Theorem query_malformed_value `{Filters} db (filters : gmap string pyval)
    k v s :
  k ∈ recognized_keys →
  filters !! k = Some v →
  (∃ e, py_getitem v 0 = Err e) ∨ (∃ e, py_getitem v 1 = Err e) →
  (NEODatabase._approaches db = [] →
   NEODatabase.query db filters s = ([], None))
  ∧ (NEODatabase._approaches db ≠ [] →
     ∃ e, NEODatabase.query db filters s = ([], Some e)).
Proof.
  intros [F HF]%recognized_key_block Hv Hbad. unfold NEODatabase.query.
  split; [by intros ->|].
  destruct (NEODatabase._approaches db) as [|a l]; [done|]. intros _.
  cbn [NEODatabase.scan]. rewrite filter_results_run_blocks.
  destruct (run_blocks_malformed blocks filters s a k F v [] HF Hv Hbad)
    as [e ->].
  eauto.
Qed.

Lemma query_malformed_value_witness :
  (NEODatabase._approaches
     (NEODatabase.Build Scenario.neos Scenario.approaches ∅ ∅) = [] →
   NEODatabase.query (H := SpecFilters.spec_filters)
     (NEODatabase.Build Scenario.neos Scenario.approaches ∅ ∅)
     {[ "diameter_min"%string := PFloat (Scenario.float_lit 1 (-1)) ]}
     (Scenario.store Scenario.T1 Scenario.T2) = ([], None))
  ∧ (NEODatabase._approaches
       (NEODatabase.Build Scenario.neos Scenario.approaches ∅ ∅) ≠ [] →
     ∃ e, NEODatabase.query (H := SpecFilters.spec_filters)
            (NEODatabase.Build Scenario.neos Scenario.approaches ∅ ∅)
            {[ "diameter_min"%string := PFloat (Scenario.float_lit 1 (-1)) ]}
            (Scenario.store Scenario.T1 Scenario.T2) = ([], Some e)).
Proof.
  apply (query_malformed_value (H := SpecFilters.spec_filters)
           (NEODatabase.Build Scenario.neos Scenario.approaches ∅ ∅)
           {[ "diameter_min"%string := PFloat (Scenario.float_lit 1 (-1)) ]}
           "diameter_min"%string (PFloat (Scenario.float_lit 1 (-1)))).
  - apply recognized_keys_spec. tauto.
  - reflexivity.
  - left. exists TypeError. reflexivity.
Defined.

(** ** Entity construction: errors, normal forms, round trips *)

Lemma string_append_id (s x : string) : (s ++ x)%string = s → x = ""%string.
Proof. induction s as [|c s IH]; simpl; [done|]. intros [= Hs]. auto. Qed.

(** X17: the name and the hazard flag never make [NearEarthObject]
    construction fail.  It raises exactly when [str] rejects the
    designation, with the exception of [str] and before the diameter is
    converted, or when [str] accepts the designation, the diameter is
    not the empty string and [float] rejects it, then with the exception
    of [float]. *)
Theorem NearEarthObject_init_error `{Builtins}
    (designation : pyval) (name : option string) (diameter hazardous : pyval)
    (e : exception) :
  NearEarthObject.__init__ designation name diameter hazardous = Err e
  ↔ py_str designation = Err e
    ∨ (∃ d, py_str designation = Ok d)
      ∧ diameter ≠ PStr "" ∧ py_float diameter = Err e.
Proof.
  unfold NearEarthObject.__init__, mbind, result_bind.
  destruct (py_str designation) as [des|e0].
  - destruct (py_eq_str diameter "") eqn:Hd.
    + simpl. split; [done|]. intros [?|(_ & Hne & _)]; [done|]. destruct Hne.
      destruct diameter; try done. simpl in Hd.
      by apply String.eqb_eq in Hd as ->.
    + destruct (py_float diameter) as [f|e'] eqn:Hf.
      * split; [done|]. by intros [?|(_ & _ & ?)].
      * split.
        -- intros [= ->]. right. split_and!; [eauto | by intros -> | done].
        -- by intros [?|(_ & _ & [= ->])].
  - split.
    + intros [= ->]. by left.
    + intros [[= ->]|([d ?] & _)]; done.
Qed.

(** X18: what a constructed NEO looks like.  A string designation is
    kept verbatim, the name is never the empty string and is the name
    passed unless that was the empty string, and the list of approaches
    starts empty. *)
Theorem NearEarthObject_init_fields `{Builtins}
    (d : string) (name : option string) (diameter hazardous : pyval) neo :
  NearEarthObject.__init__ (PStr d) name diameter hazardous = Ok neo →
  NearEarthObject.designation neo = d
  ∧ NearEarthObject.name neo ≠ Some ""%string
  ∧ (name ≠ Some ""%string → NearEarthObject.name neo = name)
  ∧ NearEarthObject.approaches neo = [].
Proof.
  unfold NearEarthObject.__init__, mbind, result_bind. cbn [py_str].
  destruct (py_float _) as [f|]; [|done]. intros [= <-]. simpl.
  split_and!; [done | by case_bool_decide | | done].
  intros Hne. by rewrite bool_decide_eq_false_2.
Qed.

Lemma NearEarthObject_init_fields_witness :
  NearEarthObject.designation Scenario.neo_A = "2000 AB"%string
  ∧ NearEarthObject.name Scenario.neo_A ≠ Some ""%string
  ∧ (Some "Apophis"%string ≠ Some ""%string →
     NearEarthObject.name Scenario.neo_A = Some "Apophis"%string)
  ∧ NearEarthObject.approaches Scenario.neo_A = [].
Proof.
  apply (NearEarthObject_init_fields (H := no_parse) "2000 AB"%string
           (Some "Apophis"%string) (PFloat (Scenario.float_lit 1 (-1)))
           (PStr "Y") Scenario.neo_A).
  reflexivity.
Defined.

(** X19: a hazard flag given as a string is read by truthiness once 'Y'
    and 'N' are set aside: the constructed NEO is hazardous exactly when
    the string is neither empty nor 'N'. *)
Theorem NearEarthObject_init_hazard_string `{Builtins}
    (designation : pyval) (name : option string) (diameter : pyval)
    (h : string) neo :
  NearEarthObject.__init__ designation name diameter (PStr h) = Ok neo →
  (NearEarthObject.hazardous neo = true ↔ h ≠ ""%string ∧ h ≠ "N"%string).
Proof.
  unfold NearEarthObject.__init__, mbind, result_bind.
  destruct (py_str designation) as [des|]; [|done].
  destruct (py_float _) as [f|]; [|done]. intros [= <-]. simpl.
  destruct (String.eqb h "Y") eqn:HY.
  { apply String.eqb_eq in HY as ->. simpl. split; [done|]. done. }
  destruct (String.eqb h "N") eqn:HN.
  { apply String.eqb_eq in HN as ->. simpl. split; [done|]. by intros [_ ?]. }
  simpl. apply String.eqb_neq in HN.
  destruct (String.eqb h "") eqn:HE; simpl.
  - apply String.eqb_eq in HE as ->. split; [done | by intros [? _]].
  - apply String.eqb_neq in HE. done.
Qed.

Lemma NearEarthObject_init_hazard_string_witness :
  NearEarthObject.hazardous
    (NearEarthObject.Build "2001 XY" None nan true [])
  = true ↔ "no"%string ≠ ""%string ∧ "no"%string ≠ "N"%string.
Proof.
  apply (NearEarthObject_init_hazard_string (H := no_parse) (PStr "2001 XY")
           None (PStr "") "no"%string
           (NearEarthObject.Build "2001 XY" None nan true [])).
  reflexivity.
Defined.

(** X20: construction is a round trip on its own results.  Building a
    NEO again from the designation, name, diameter and hazard flag of a
    NEO whose name is not the empty string gives that NEO back, with an
    empty list of approaches, whatever the built-in conversions do. *)
Theorem NearEarthObject_init_roundtrip `{Builtins} (neo : NearEarthObject.t) :
  NearEarthObject.name neo ≠ Some ""%string →
  NearEarthObject.__init__ (PStr (NearEarthObject.designation neo))
    (NearEarthObject.name neo) (PFloat (NearEarthObject.diameter neo))
    (PBool (NearEarthObject.hazardous neo))
  = Ok (NearEarthObject.set_approaches [] neo).
Proof.
  intros Hname. unfold NearEarthObject.__init__. simpl.
  rewrite bool_decide_eq_false_2 by done.
  by destruct neo.
Qed.

Lemma NearEarthObject_init_roundtrip_witness :
  NearEarthObject.__init__ (H := no_parse)
    (PStr (NearEarthObject.designation Scenario.neo_A))
    (NearEarthObject.name Scenario.neo_A)
    (PFloat (NearEarthObject.diameter Scenario.neo_A))
    (PBool (NearEarthObject.hazardous Scenario.neo_A))
  = Ok (NearEarthObject.set_approaches [] Scenario.neo_A).
Proof.
  apply (NearEarthObject_init_roundtrip (H := no_parse) Scenario.neo_A).
  discriminate.
Defined.

(** X21: [fullname] is the bare designation exactly for an unnamed NEO;
    with a name it is strictly longer. *)
Theorem fullname_is_designation_iff_unnamed (neo : NearEarthObject.t) :
  NearEarthObject.fullname neo = NearEarthObject.designation neo
  ↔ NearEarthObject.name neo = None.
Proof.
  unfold NearEarthObject.fullname.
  destruct (NearEarthObject.name neo) as [n|]; [|done].
  split; [|done]. intros Heq. by apply string_append_id in Heq.
Qed.

(** X22: a NEO constructed with the empty string as diameter describes
    itself as having an unknown diameter, and the sentence does not
    depend on how floats are printed. *)
Theorem NearEarthObject_str_unknown_diameter `{Builtins}
    (designation : pyval) (name : option string) (hazardous : pyval) neo :
  NearEarthObject.__init__ designation name (PStr "") hazardous = Ok neo →
  NearEarthObject.__str__ neo
  = ("A Near Earth Object named " ++ NearEarthObject.fullname neo
     ++ " with an unknown diameter and "
     ++ (if NearEarthObject.hazardous neo then "is" else "is not")
     ++ " potentially hazardus.")%string.
Proof.
  unfold NearEarthObject.__init__, mbind, result_bind.
  destruct (py_str designation) as [des|]; [|done].
  simpl. intros [= <-]. reflexivity.
Qed.

Lemma NearEarthObject_str_unknown_diameter_witness :
  NearEarthObject.__str__ (H := no_parse) Scenario.neo_B
  = ("A Near Earth Object named " ++ NearEarthObject.fullname Scenario.neo_B
     ++ " with an unknown diameter and "
     ++ (if NearEarthObject.hazardous Scenario.neo_B then "is" else "is not")
     ++ " potentially hazardus.")%string.
Proof.
  apply (NearEarthObject_str_unknown_diameter (H := no_parse)
           (PStr "2001 XY") None (PStr "N") Scenario.neo_B).
  reflexivity.
Defined.

(** X23: a freshly constructed [CloseApproach] is unlinked: it keeps the
    designation it was given, its [neo] is [None] and it has none of the
    attributes the database adds; its time, distance and velocity are
    what the time parser and [float] returned.  A failure of the time
    parser is raised whatever the distance and velocity are. *)
Theorem CloseApproach_init_unlinked `{Builtins}
    (cd_to_datetime : string → result datetime.datetime)
    (designation cd_time : string) (distance velocity : pyval) :
  (∀ e, cd_to_datetime cd_time = Err e →
        CloseApproach.__init__ cd_to_datetime designation cd_time
          distance velocity = Err e)
  ∧ (∀ ca, CloseApproach.__init__ cd_to_datetime designation cd_time
             distance velocity = Ok ca →
           CloseApproach.designation ca = designation
           ∧ CloseApproach.neo ca = None
           ∧ CloseApproach.name ca = None
           ∧ CloseApproach.diameter ca = None
           ∧ CloseApproach.hazardous ca = None
           ∧ cd_to_datetime cd_time = Ok (CloseApproach.time ca)
           ∧ py_float distance = Ok (CloseApproach.distance ca)
           ∧ py_float velocity = Ok (CloseApproach.velocity ca)).
Proof.
  unfold CloseApproach.__init__, mbind, result_bind. split.
  - by intros e ->.
  - intros ca. destruct (cd_to_datetime cd_time) as [tm|]; [|done].
    destruct (py_float distance) as [d|]; [|done].
    destruct (py_float velocity) as [v|]; [|done].
    by intros [= <-].
Qed.
